(** * Promtail docker target: a shallow embedding of
    [clients/pkg/promtail/targets/docker/target.go]

    First the library calls the target relies on (strings, time, strconv,
    the label builder), [extractTs], and the collaborators the target is
    handed.  Then, over these collaborators, the line processor [process],
    the constructor [NewTarget], the status methods, and the lifecycle
    ([processLoop], the demultiplexer goroutine, [Stop]) as a small-step
    machine over the program counters of the goroutines.  The validation
    of the cluster planner's configuration ([cmd/cluster-plan/main.go]) is
    embedded next to the collaborators.  The properties follow the
    definitions. *)

From Stdlib Require Import ZArith Ascii String DecimalString List Bool Lia.
From Stdlib Require Import PrimFloat.
From stdpp Require Import base option list strings gmap sorting.

Set Default Proof Using "Type".
Local Open Scope Z_scope.

(** ** Fallible calls

    Go's [(value, error)] pair with exactly one of the two meaningful. *)
Inductive result (E A : Type) : Type :=
| Ok (a : A)
| Failed (e : E).
Arguments Ok {E A} a.
Arguments Failed {E A} e.

#[global] Instance result_bind {E : Type} : MBind (result E) := fun A B k r =>
  match r with
  | Ok a => k a
  | Failed e => Failed e
  end.

(** ** Go strings

    A Go [string] is a sequence of bytes; [String.string] is a sequence of
    8-bit [ascii] and is used as it is. *)
Module strings.

(** [strings.HasPrefix(s, prefix)]. *)
Definition HasPrefix (s prefix : string) : bool := String.prefix prefix s.

(** [s[n:]]; Go panics when [n > len(s)], the callers below never do that. *)
Fixpoint drop (n : nat) (s : string) : string :=
  match n, s with
  | O, _ => s
  | S n', String _ s' => drop n' s'
  | S _, EmptyString => EmptyString
  end.

(** The text before and after the first occurrence of [sep] in [s]
    ([strings.Index] followed by the two slices of [genSplit]). *)
Fixpoint Cut (s sep : string) {struct s} : option (string * string) :=
  if String.prefix sep s then Some (EmptyString, drop (String.length sep) s)
  else match s with
       | EmptyString => None
       | String c s' =>
           match Cut s' sep with
           | Some (before, after) => Some (String c before, after)
           | None => None
           end
       end.

(** [strings.SplitN(s, sep, n)] for a non-empty [sep] and [n >= 0]: at
    most [n] pieces, the last one being the unsplit remainder. *)
Fixpoint SplitN (s sep : string) (n : nat) : list string :=
  match n with
  | O => []
  | S O => [s]
  | S n' =>
      match Cut s sep with
      | None => [s]
      | Some (before, after) => before :: SplitN after sep n'
      end
  end.

(** ASCII white space, as [unicode.IsSpace] classifies single bytes
    below 0x80: tab, line feed, vertical tab, form feed, carriage return
    and space. *)
Definition IsSpace (c : ascii) : bool :=
  let n := N_of_ascii c in
  ((9 <=? n) && (n <=? 13) || (n =? 32))%N.

(** [strings.ContainsFunc(s, unicode.IsSpace)] on such bytes. *)
Fixpoint ContainsSpace (s : string) : bool :=
  match s with
  | EmptyString => false
  | String c s' => IsSpace c || ContainsSpace s'
  end.

(** [strings.Contains(s, " ")], written by recursion on the bytes. *)
Fixpoint ContainsBlank (s : string) : bool :=
  match s with
  | EmptyString => false
  | String c s' => Ascii.eqb c " " || ContainsBlank s'
  end.

End strings.

(** ** Go time

    [time.Parse] specialised to the one layout the target uses,
    ["2006-01-02T15:04:05.999999999Z07:00"].  The layout decomposes into the
    chunks year, "-", zero-padded month, "-", zero-padded day, "T", hour,
    ":", minute, ":", second, optional fraction, zone; each chunk is read the
    way the standard library's [parse] reads it. *)
Module time.

(** The location a parsed [Time] carries: [UTC] for a literal [Z], and for
    a numeric offset either the local zone (when its offset agrees) or a
    fixed zone; both of the latter are summarised by the offset in
    seconds. *)
Inductive Location : Type :=
| UTC
| FixedOffset (seconds : Z).

Record Time : Type := mkTime {
  unixSec : Z;        (* seconds since 1970-01-01T00:00:00Z *)
  nanos : Z;          (* nanosecond within the second *)
  location : Location
}.

(** [t.Unix()]. *)
Definition Unix (t : Time) : Z := unixSec t.

(** What a [*time.ParseError] reports. *)
Inductive ParseError : Type :=
| errBad (layoutElem : string) (valueElem : string)
| errRange (what : string)
| errExtraText (rest : string).

Definition digit (c : ascii) : option Z :=
  let n := Z.of_N (N_of_ascii c) in
  if (48 <=? n) && (n <=? 57) then Some (n - 48) else None.

Definition isDigit (s : string) : bool :=
  match s with
  | String c _ => bool_decide (is_Some (digit c))
  | EmptyString => false
  end.

(** [getnum(s, fixed)]: one or two leading digits; with [fixed], exactly
    two are required. *)
Definition getnum (s : string) (fixed : bool) : option (Z * string) :=
  match s with
  | EmptyString => None
  | String c0 s1 =>
      match digit c0 with
      | None => None
      | Some d0 =>
          match s1 with
          | String c1 s2 =>
              match digit c1 with
              | Some d1 => Some (d0 * 10 + d1, s2)
              | None => if fixed then None else Some (d0, s1)
              end
          | EmptyString => if fixed then None else Some (d0, s1)
          end
      end
  end.

(** [skip(value, prefix)] for a literal prefix without blanks. *)
Fixpoint skip (value prefix : string) {struct prefix} : option string :=
  match prefix with
  | EmptyString => Some value
  | String p prefix' =>
      match value with
      | String v value' => if Ascii.eqb v p then skip value' prefix' else None
      | EmptyString => None
      end
  end.

(** [value[1+i:]] of the fraction chunk: the input after its maximal run
    of leading digits. *)
Fixpoint dropDigits (s : string) : string :=
  match s with
  | String c s' =>
      match digit c with
      | Some _ => dropDigits s'
      | None => s
      end
  | EmptyString => s
  end.

(** The first [k] digits of a run of digits as a number ([atoi] of a
    slice), scaled as [parseNanoseconds] scales: digits beyond the ninth
    are cut off, missing ones count as zeros. *)
Fixpoint fracDigits (s : string) (k : nat) : Z :=
  match k with
  | O => 0
  | S k' =>
      match s with
      | String c s' =>
          match digit c with
          | Some d => d * 10 ^ Z.of_nat k' + fracDigits s' k'
          | None => 0
          end
      | EmptyString => 0
      end
  end.

Definition commaOrPeriod (c : ascii) : bool :=
  Ascii.eqb c "." || Ascii.eqb c ",".

Definition isLeap (year : Z) : bool :=
  (year mod 4 =? 0) && (negb (year mod 100 =? 0) || (year mod 400 =? 0)).

Definition daysIn (month year : Z) : Z :=
  if month =? 2 then (if isLeap year then 29 else 28)
  else if (month =? 4) || (month =? 6) || (month =? 9) || (month =? 11)
       then 30 else 31.

(** Days from 1970-01-01 to the given civil date (proleptic Gregorian
    calendar), for a month in 1..12. *)
Definition daysSinceEpoch (year month day : Z) : Z :=
  let y := if month <=? 2 then year - 1 else year in
  let era := y / 400 in
  let yoe := y - era * 400 in
  let mp := if month <=? 2 then month + 9 else month - 3 in
  let doy := (153 * mp + 2) / 5 + day - 1 in
  let doe := yoe * 365 + yoe / 4 - yoe / 100 + doy in
  era * 146097 + doe - 719468.

(** [Date(year, month, day, hour, min, sec, nsec, UTC)] on fields that are
    already in range. *)
Definition Date (year month day hour min sec nsec : Z) : Time :=
  mkTime (daysSinceEpoch year month day * 86400 + hour * 3600 + min * 60 + sec)
         nsec UTC.

(** A chunk that fails to read is reported as [errBad] with the layout
    element and the input it was tried on. *)
Definition chunk {A : Type} (elem value : string) (o : option A)
  : result ParseError A :=
  match o with
  | Some a => Ok a
  | None => Failed (errBad elem value)
  end.

Definition inRange (what : string) (ok : bool) : result ParseError unit :=
  if ok then Ok tt else Failed (errRange what).

(** [stdLongYear]: exactly four digits. *)
Definition parseYear (value : string) : option (Z * string) :=
  match value with
  | String a (String b (String c (String d rest))) =>
      match digit a, digit b, digit c, digit d with
      | Some x, Some y, Some z, Some w =>
          Some (((x * 10 + y) * 10 + z) * 10 + w, rest)
      | _, _, _, _ => None
      end
  | _ => None
  end.

(** [stdFracSecond9]: an optional fraction, introduced by a period or a
    comma followed by at least one digit; any number of digits is taken. *)
Definition parseFrac (value : string) : Z * string :=
  match value with
  | String p digits =>
      if commaOrPeriod p && isDigit digits
      then (fracDigits digits 9, dropDigits digits)
      else (0, value)
  | EmptyString => (0, value)
  end.

(** [stdISO8601ColonTZ]: a literal [Z] for UTC, or sign, two-digit hours, a
    colon and two-digit minutes.  [None] stands for UTC, [Some off] for the
    offset in seconds. *)
Definition parseZone (value : string)
  : result ParseError (option Z * string) :=
  match value with
  | String "Z" rest => Ok (None, rest)
  | String sign (String h1 (String h2 (String colon (String m1 (String m2 rest))))) =>
      if negb (Ascii.eqb colon ":") then Failed (errBad "Z07:00" value)
      else
        '(hr, _) ← chunk "Z07:00" value
                      (getnum (String h1 (String h2 EmptyString)) true);
        '(mm, _) ← chunk "Z07:00" value
                      (getnum (String m1 (String m2 EmptyString)) true);
        _ ← inRange "time zone offset hour" (hr <=? 24);
        _ ← inRange "time zone offset minute" (mm <=? 60);
        let offset := (hr * 60 + mm) * 60 in
        if Ascii.eqb sign "+" then Ok (Some offset, rest)
        else if Ascii.eqb sign "-" then Ok (Some (- offset), rest)
        else Failed (errBad "Z07:00" value)
  | _ => Failed (errBad "Z07:00" value)
  end.

(** [time.Parse(layout, value)]. *)
Definition Parse (value : string) : result ParseError Time :=
  '(year, value) ← chunk "2006" value (parseYear value);
  value ← chunk "-" value (skip value "-");
  '(month, value) ← chunk "01" value (getnum value true);
  _ ← inRange "month" ((1 <=? month) && (month <=? 12));
  value ← chunk "-" value (skip value "-");
  '(day, value) ← chunk "02" value (getnum value true);
  value ← chunk "T" value (skip value "T");
  '(hour, value) ← chunk "15" value (getnum value false);
  _ ← inRange "hour" (hour <? 24);
  value ← chunk ":" value (skip value ":");
  '(min, value) ← chunk "04" value (getnum value true);
  _ ← inRange "minute" (min <? 60);
  value ← chunk ":" value (skip value ":");
  '(sec, value) ← chunk "05" value (getnum value true);
  _ ← inRange "second" (sec <? 60);
  let '(nsec, value) := parseFrac value in
  '(zone, value) ← parseZone value;
  match value with
  | String _ _ => Failed (errExtraText value)
  | EmptyString =>
      _ ← inRange "day" ((1 <=? day) && (day <=? daysIn month year));
      let t := Date year month day hour min sec nsec in
      match zone with
      | None => Ok t
      | Some offset =>
          Ok (mkTime (unixSec t - offset) (nanos t) (FixedOffset offset))
      end
  end.

End time.

(** ** Go strconv *)
Module strconv.

(** [strconv.FormatInt(i, 10)]. *)
Definition FormatInt (i : Z) : string := NilZero.string_of_int (Z.to_int i).

(** [strconv.FormatBool(b)]. *)
Definition FormatBool (b : bool) : string := if b then "true" else "false".

End strconv.

(** ** Prometheus label sets ([model/labels])

    A [Labels] value is a slice of name/value pairs; the builder collects
    deletions and additions over a base and renders them sorted by name. *)
Module labels.

Record Label : Type := mkLabel { Name : string; Value : string }.

Abbreviation Labels := (list Label).

(** The order [sort.Sort] arranges a [Labels] slice in: by name, bytewise.
    The slice a builder sorts never repeats a name, so the non-strict order
    used here and Go's strict [Less] arrange it the same way. *)
Definition Less (a b : Label) : Prop := String.le (Name a) (Name b).

#[global] Instance Less_dec (a b : Label) : Decision (Less a b) := _.

Record Builder : Type := mkBuilder {
  base : Labels;
  del : list string;
  add : Labels
}.

(** [labels.NewBuilder(base)]: base labels with an empty value count as
    deleted. *)
Definition NewBuilder (base : Labels) : Builder :=
  mkBuilder base
            (Name <$> filter (fun l => Value l = EmptyString) base)
            [].

(** [b.Del(n)]: drop a pending addition of [n] and remember the deletion. *)
Definition Del (b : Builder) (n : string) : Builder :=
  mkBuilder (base b)
            (del b ++ [n])
            (filter (fun a => Name a <> n) (add b)).

(** The loop of [b.Set] over [b.add]: overwrite the value in place when the
    name is already there, append otherwise. *)
Fixpoint setAdd (adds : Labels) (n v : string) : Labels :=
  match adds with
  | [] => [mkLabel n v]
  | a :: adds' =>
      if String.eqb (Name a) n then mkLabel n v :: adds'
      else a :: setAdd adds' n v
  end.

(** [b.Set(n, v)]: an empty value deletes the label. *)
Definition Set_ (b : Builder) (n v : string) : Builder :=
  if String.eqb v EmptyString then Del b n
  else mkBuilder (base b) (del b) (setAdd (add b) n v).

(** [b.Labels()]. *)
Definition Builder_Labels (b : Builder) : Labels :=
  match del b, add b with
  | [], [] => base b
  | _, _ =>
      merge_sort Less
        (filter (fun l => (Name l ∉ del b) /\ (Name l ∉ (Name <$> add b)))
                (base b)
         ++ add b)
  end.

End labels.

(** ** Errors

    The [error] values that occur: what a collaborator (position store,
    docker client) hands back, known by its text, and the two errors
    [extractTs] builds with [fmt.Errorf]. *)
Inductive error : Type :=
| errors_New (text : string)
| errNoTimestamp (line : string)
    (* fmt.Errorf("Could not find timestamp in '%s'", line) *)
| errBadTimestamp (token : string) (cause : time.ParseError).
    (* fmt.Errorf("Could not parse timestamp from '%s': %w", pair[0], err) *)

(** ** extractTs

    [now] is what [time.Now()] reads at the call. *)
Definition extractTs (now : time.Time) (line : string)
  : time.Time * string * option error :=
  match strings.SplitN line " " 2 with
  | [ts_token; rest] =>
      match time.Parse ts_token with
      | Failed err => (now, line, Some (errBadTimestamp ts_token err))
      | Ok ts => (ts, rest, None)
      end
  | _ => (now, line, Some (errNoTimestamp line))
  end.

(** ** Collaborators *)

(** Modelled from the spec: the position store behind the interface
    [positions.Positions], whose implementation is in another package: a
    durable key-to-cursor mapping with [get(key)] returning a cursor or an
    error, [put(key, cursor)] and [getDisplayString(key)].  The one law is
    that of a mapping: a key reads back what was last put under it. *)
Class Positions (P : Type) : Type := {
  Get : P -> string -> result error Z;
  Put : P -> string -> Z -> P;
  GetString : P -> string -> string;
  Get_Put : forall p key pos, Get (Put p key pos) key = Ok pos
}.

(** [docker_types.ContainerLogsOptions], the fields [processLoop] sets. *)
Record ContainerLogsOptions : Type := mkOptions {
  ShowStdout : bool;
  ShowStderr : bool;
  Follow : bool;
  Timestamps : bool;
  Since : string
}.

(** [api.Entry] with its embedded [logproto.Entry]. *)
Record Entry : Type := mkEntry {
  Labels : gmap string string;
  Timestamp : time.Time;
  Line : string
}.

(** The two counters of [Metrics]. *)
Record Metrics : Type := mkMetrics {
  dockerEntries : Z;
  dockerErrors : Z
}.

(** Program counters of the goroutines of one target.  Each constructor
    names the statement the goroutine has last completed. *)
Inductive LoopPc : Type :=
| LoopSpawned     (* go t.processLoop(ctx) *)
| LoopAdded       (* t.wg.Add(1); defer t.wg.Done() *)
| LoopMarked      (* t.running.Store(true) *)
| LoopFailed      (* ContainerLogs failed; t.err = err; return *)
| LoopFetched     (* ContainerLogs succeeded; pipes created *)
| LoopCopying     (* t.wg.Add(1); go func() { ... StdCopy ... }() *)
| LoopStreaming   (* t.wg.Add(2); go t.process(..) twice; in <-ctx.Done() *)
| LoopUnmarked    (* t.running.Store(false) *)
| LoopClosed      (* logs.Close() *)
| LoopReturned.   (* deferred t.wg.Done() *)

Inductive DemuxPc : Type :=
| DemuxNone       (* not spawned *)
| DemuxCopying    (* in stdcopy.StdCopy *)
| DemuxDone       (* StdCopy returned; deferred t.wg.Done() *)
| DemuxClosed     (* wstdout.Close(); wstderr.Close() *)
| DemuxStopping   (* t.Stop(): t.cancel() done, in t.wg.Wait() *)
| DemuxReturned.

Inductive ProcPc : Type :=
| ProcNone        (* not spawned *)
| ProcScanning    (* in the scanner loop *)
| ProcReturned.   (* deferred t.wg.Done() *)

Inductive CallerPc : Type :=
| CallerIdle      (* outside Stop *)
| CallerWaiting.  (* Stop: t.cancel() done, in t.wg.Wait() *)

Inductive Thread : Type :=
| ThLoop | ThDemux | ThStdout | ThStderr | ThCaller.

Inductive StreamState : Type :=
| StreamOpen
| StreamClosed.

(** A position store kept as a finite map, as the agent's positions file
    is: a key holds a cursor or an entry that does not read as a number; a
    key never written reads as zero. *)
Definition mapGet (p : gmap string (option Z)) (key : string) : result error Z :=
  match p !! key with
  | None => Ok 0
  | Some (Some pos) => Ok pos
  | Some None => Failed (errors_New "invalid position")
  end.

Definition mapPut (p : gmap string (option Z)) (key : string) (pos : Z)
  : gmap string (option Z) :=
  <[key := Some pos]> p.

Definition mapGetString (p : gmap string (option Z)) (key : string) : string :=
  match p !! key with
  | Some (Some pos) => strconv.FormatInt pos
  | _ => EmptyString
  end.

#[global] Instance mapPositions : Positions (gmap string (option Z)) :=
  {| Get := mapGet; Put := mapPut; GetString := mapGetString;
     Get_Put := ltac:(intros p key pos; unfold mapGet, mapPut;
                      by rewrite lookup_insert_eq) |}.

(** ** The cluster planner ([cmd/cluster-plan/main.go])

    The configuration of the sizing tool and its validation.  The rate is
    a [flagext.ByteSize], an unsigned integer; the retention is an [int];
    the four unit costs are [float64] and are compared as IEEE 754 binary64
    numbers. *)
Set Warnings "-inexact-float".
Module clusterplan.

(** [sizing.UnitCostInfo], the fields the flags fill. *)
Record UnitCostInfo : Type := mkUnitCostInfo {
  CostPerGBMem : float;
  CostPerCPU : float;
  CostPerGBDisk : float;
  CostPerGBObjStorage : float
}.

Record Config : Type := mkConfig {
  BytesPerSecond : Z;
  DaysRetention : Z;
  MonthlyUnitCost : UnitCostInfo
}.

(** [c.RegisterFlags(f)], as far as [c] goes: the rate has no default and
    keeps its value, the other fields are set to the defaults of their
    flags. *)
Definition RegisterFlags (c : Config) : Config :=
  mkConfig (BytesPerSecond c) 30
           (mkUnitCostInfo 2.44%float 18.19%float 0.187%float 0.023%float).

(** [c.Validate()]; [None] is the nil error. *)
Definition Validate (c : Config) : option error :=
  if BytesPerSecond c <=? 0
  then Some (errors_New "must specify bytes-per-second")
  else if DaysRetention c <? 0
  then Some (errors_New "Cannot specify negative days retention")
  else if (CostPerGBMem (MonthlyUnitCost c) <? 0)%float
  then Some (errors_New "Cannot specify negative cost per GB Mem")
  else if (CostPerCPU (MonthlyUnitCost c) <? 0)%float
  then Some (errors_New "Cannot specify negative cost per CPU")
  else if (CostPerGBDisk (MonthlyUnitCost c) <? 0)%float
  then Some (errors_New "Cannot specify negative cost per GB Disk")
  else if (CostPerGBObjStorage (MonthlyUnitCost c) <? 0)%float
  then Some (errors_New "Cannot specify negative cost per GB Object Storage")
  else None.

End clusterplan.

(** ** A sample deployment

    Collaborators to run the definitions on: a relabel engine without
    rules, the cursor key and the log-stream label name of the agent, a
    docker client that knows no container and one that serves every
    request, and a container with two labels. *)
Definition noRelabel (ls : labels.Labels) (cfgs : list unit) : labels.Labels :=
  ls.

(** A relabel engine whose rules drop every target. *)
Definition dropAll (ls : labels.Labels) (cfgs : list unit) : labels.Labels :=
  [].

Definition cursorKey (key : string) : string := "cursor-" +:+ key.

Definition logStreamLabel : string := "__meta_docker_container_log_stream".

Definition noSuchContainer : error := errors_New "no such container".

Definition failingClient (done : bool) (container : string)
  (opts : ContainerLogsOptions) : result error unit :=
  Failed noSuchContainer.

Definition servingClient (done : bool) (container : string)
  (opts : ContainerLogsOptions) : result error unit :=
  Ok tt.

Definition parseErrorText (e : time.ParseError) : string := "parsing time".

Definition epoch : time.Time := time.mkTime 0 0 time.UTC.

Definition webLabels : gmap string string :=
  <["job" := "docker"]> (<["__meta_docker_container_name" := "/web"]> ∅).

Definition noPositions : gmap string (option Z) := ∅.

Definition brokenPositions : gmap string (option Z) :=
  <["cursor-web" := None]> ∅.

(** A line with a tab and no blank. *)
Definition tabbedLine : string :=
  "2023-01-01T00:00:00.000000000Z" +:+ String "009" "hello".

(** A call either returns or panics (here: a nil dereference). *)
Inductive outcome (A : Type) : Type :=
| Returns (a : A)
| Panics.
Arguments Returns {A} a.
Arguments Panics {A}.

(** [target.TargetType]: the kinds of target of the agent. *)
Inductive TargetType : Type :=
| FileTargetType
| JournalTargetType
| DockerTargetType.

Section Target.

(** The position store, and what the target takes from other packages:
    the relabel engine ([relabel.Config], [relabel.Process]), the key under
    which a container's cursor is stored ([positions.CursorKey]), the name
    of the log-stream label (the constant [dockerLabelLogStream]), the
    combined log stream the docker client hands out, the text of a
    [*time.ParseError], and the reading of [time.Now()]. *)
Context {P : Type} `{Positions P}.
Context {Config : Type}.
Variable relabel_Process : labels.Labels -> list Config -> labels.Labels.
Variable CursorKey : string -> string.
Variable dockerLabelLogStream : string.
Context {ReadCloser : Type}.
Variable ParseError_Error : time.ParseError -> string.
Variable Now : time.Time.

(** [err.Error()]. *)
Definition Error (e : error) : string :=
  match e with
  | errors_New text => text
  | errNoTimestamp line => "Could not find timestamp in '" +:+ line +:+ "'"
  | errBadTimestamp token cause =>
      "Could not parse timestamp from '" +:+ token +:+ "': "
      +:+ ParseError_Error cause
  end.

(** [client.ContainerLogs(ctx, container, options)]: the first argument
    tells whether [ctx] is already cancelled at the call. *)
Definition APIClient : Type :=
  bool -> string -> ContainerLogsOptions -> result error ReadCloser.

(** The [Target] struct.  [cancelled] is the state of the context whose
    [cancel] the struct keeps, [wg] the counter of the wait group.  The
    logger, the entry handler, the metrics and the position store are
    shared with the rest of the agent and are passed where they are used. *)
Record Target : Type := mkTarget {
  since : Z;
  containerName : string;
  labels : gmap string string;
  relabelConfig : list Config;
  client : APIClient;
  cancelled : bool;
  wg : Z;
  running : bool;
  err : option error
}.

(** *** The line processor *)

(** What [process] acts on besides the target: the entries sent on
    [t.handler.Chan()] in the order of sending, the metrics, and the
    position store. *)
Record World : Type := mkWorld {
  sent : list Entry;
  metrics : Metrics;
  positions : P
}.

(** The label set handed to [relabel.Process]: the target's labels, set
    one by one in the order [labelSet] lists them (the order of [range] over
    the map), then the log-stream label. *)
Definition streamLabels (labelSet : list (string * string)) (logStream : string)
  : labels.Labels :=
  let lb := foldl (fun lb kv => labels.Set_ lb kv.1 kv.2)
                  (labels.NewBuilder []) labelSet in
  let lb := labels.Set_ lb dockerLabelLogStream logStream in
  labels.Builder_Labels lb.

(** The loop over [processed] that fills [filtered]. *)
Definition filterLabels (processed : labels.Labels) : gmap string string :=
  foldl (fun filtered lbl =>
           if strings.HasPrefix (labels.Name lbl) "__" then filtered
           else <[labels.Name lbl := labels.Value lbl]> filtered)
        ∅ processed.

(** The error branch of the loop body: count the line and [continue]. *)
Definition countError (w : World) : World :=
  mkWorld (sent w)
          (mkMetrics (dockerEntries (metrics w)) (dockerErrors (metrics w) + 1))
          (positions w).

(** The entry built from a line whose timestamp was extracted. *)
Definition entryFor (t : Target) (logStream : string) (ts : time.Time)
  (line : string) : Entry :=
  let processed :=
    relabel_Process (streamLabels (map_to_list (labels t)) logStream)
                    (relabelConfig t) in
  mkEntry (filterLabels processed) ts line.

(** The rest of the loop body: send the entry, count it, store the
    cursor. *)
Definition forward (t : Target) (logStream : string) (w : World)
  (ts : time.Time) (line : string) : World :=
  mkWorld (sent w ++ [entryFor t logStream ts line])
          (mkMetrics (dockerEntries (metrics w) + 1) (dockerErrors (metrics w)))
          (Put (positions w) (CursorKey (containerName t)) (time.Unix ts)).

(** One iteration of the scanner loop of [process], on the line
    [scanner.Text()] returned. *)
Definition processLine (t : Target) (logStream : string) (w : World)
  (line : string) : World :=
  match extractTs Now line with
  | (_, _, Some _) => countError w
  | (ts, line, None) => forward t logStream w ts line
  end.

(** [t.process(r, logStream)] on the lines the scanner reads from [r]
    until the end of the stream. *)
Definition process (t : Target) (lines : list string) (logStream : string)
  (w : World) : World :=
  foldl (processLine t logStream) w lines.

(** The lines, as the statements below sort them: a well-formed line is
    a token that parses as a timestamp, one blank, and any text; a
    malformed line is one on which [extractTs] fails at its split or at its
    parse: the line has no blank (the byte 0x20 that [strings.SplitN] looks
    for: a line without any white space, and as well a line whose only
    white space is a tab, a carriage return, a vertical tab or a form
    feed), or the token before its first blank does not parse. *)
Definition wellFormed (line : string) : Prop :=
  exists token text ts,
    line = token +:+ " " +:+ text /\ time.Parse token = Ok ts.

Definition malformed (line : string) : Prop :=
  strings.ContainsBlank line = false
  \/ exists token rest err,
       strings.Cut line " " = Some (token, rest)
       /\ time.Parse token = Failed err.

(** *** Construction *)

(** The goroutines of a target next to its struct: where each of them
    stands, the combined stream once [ContainerLogs] has returned it, and
    how many calls of [Stop] from outside have returned. *)
Record Machine : Type := mkMachine {
  target : Target;
  logs : option (ReadCloser * StreamState);
  loopPc : LoopPc;
  demuxPc : DemuxPc;
  stdoutPc : ProcPc;
  stderrPc : ProcPc;
  callerPc : CallerPc;
  stopsReturned : nat
}.

(** [NewTarget]: the struct it builds, and the machine in which
    [processLoop] has been spawned and nothing else has run. *)
Definition NewTarget (position : P) (containerName : string)
  (labels : gmap string string) (relabelConfig : list Config)
  (client : APIClient) : result error Machine :=
  match Get position (CursorKey containerName) with
  | Failed err => Failed err
  | Ok pos =>
      let since := if negb (pos =? 0) then pos else 0 in
      let t := mkTarget since containerName labels relabelConfig client
                        false 0 false None in
      Ok (mkMachine t None LoopSpawned DemuxNone ProcNone ProcNone
                    CallerIdle 0)
  end.

(** *** Status methods *)

Definition Type_ (t : Target) : TargetType := DockerTargetType.

Definition Ready (t : Target) : bool := running t.

Definition DiscoveredLabels (t : Target) : gmap string string := labels t.

Definition Labels_ (t : Target) : gmap string string := labels t.

(** [Details]: [t.err.Error()] is called whatever [t.err] holds, and
    panics on the nil error. *)
Definition Details (t : Target) (position : P)
  : outcome (gmap string string) :=
  match err t with
  | None => Panics
  | Some e =>
      Returns (<["id" := containerName t]>
              (<["error" := Error e]>
              (<["position" := GetString position (CursorKey (containerName t))]>
              (<["running" := strconv.FormatBool (running t)]> ∅))))
  end.

(** *** The goroutines, statement by statement *)

Definition withTarget (m : Machine) (t : Target) : Machine :=
  mkMachine t (logs m) (loopPc m) (demuxPc m) (stdoutPc m) (stderrPc m)
            (callerPc m) (stopsReturned m).

Definition wgAdd (delta : Z) (t : Target) : Target :=
  mkTarget (since t) (containerName t) (labels t) (relabelConfig t) (client t)
           (cancelled t) (wg t + delta) (running t) (err t).

Definition runningStore (b : bool) (t : Target) : Target :=
  mkTarget (since t) (containerName t) (labels t) (relabelConfig t) (client t)
           (cancelled t) (wg t) b (err t).

Definition setErr (e : error) (t : Target) : Target :=
  mkTarget (since t) (containerName t) (labels t) (relabelConfig t) (client t)
           (cancelled t) (wg t) (running t) (Some e).

(** [t.cancel()]. *)
Definition cancel (t : Target) : Target :=
  mkTarget (since t) (containerName t) (labels t) (relabelConfig t) (client t)
           true (wg t) (running t) (err t).

Definition atLoop (pc : LoopPc) (m : Machine) : Machine :=
  mkMachine (target m) (logs m) pc (demuxPc m) (stdoutPc m) (stderrPc m)
            (callerPc m) (stopsReturned m).

Definition atDemux (pc : DemuxPc) (m : Machine) : Machine :=
  mkMachine (target m) (logs m) (loopPc m) pc (stdoutPc m) (stderrPc m)
            (callerPc m) (stopsReturned m).

Definition withLogs (l : option (ReadCloser * StreamState)) (m : Machine)
  : Machine :=
  mkMachine (target m) l (loopPc m) (demuxPc m) (stdoutPc m) (stderrPc m)
            (callerPc m) (stopsReturned m).

(** The options [processLoop] asks the logs with. *)
Definition logsOptions (t : Target) : ContainerLogsOptions :=
  mkOptions true true true true (strconv.FormatInt (since t)).

(** [logs.Close()]. *)
Definition closeLogs (l : option (ReadCloser * StreamState))
  : option (ReadCloser * StreamState) :=
  match l with
  | Some (r, _) => Some (r, StreamClosed)
  | None => None
  end.

(** [processLoop], one statement at a time; [None] while it is blocked in
    [<-ctx.Done()] and after it has returned. *)
Definition processLoop (m : Machine) : option Machine :=
  let t := target m in
  match loopPc m with
  | LoopSpawned => Some (atLoop LoopAdded (withTarget m (wgAdd 1 t)))
  | LoopAdded => Some (atLoop LoopMarked (withTarget m (runningStore true t)))
  | LoopMarked =>
      match client t (cancelled t) (containerName t) (logsOptions t) with
      | Failed e => Some (atLoop LoopFailed (withTarget m (setErr e t)))
      | Ok r => Some (atLoop LoopFetched (withLogs (Some (r, StreamOpen)) m))
      end
  | LoopFailed => Some (atLoop LoopReturned (withTarget m (wgAdd (-1) t)))
  | LoopFetched =>
      Some (atLoop LoopCopying (atDemux DemuxCopying (withTarget m (wgAdd 1 t))))
  | LoopCopying =>
      Some (mkMachine (wgAdd 2 t) (logs m) LoopStreaming (demuxPc m)
                      ProcScanning ProcScanning (callerPc m) (stopsReturned m))
  | LoopStreaming =>
      if cancelled t
      then Some (atLoop LoopUnmarked (withTarget m (runningStore false t)))
      else None
  | LoopUnmarked => Some (atLoop LoopClosed (withLogs (closeLogs (logs m)) m))
  | LoopClosed => Some (atLoop LoopReturned (withTarget m (wgAdd (-1) t)))
  | LoopReturned => None
  end.

(** The demultiplexer goroutine.  [StdCopy] can return at any moment (end
    of the stream, a framing error, the stream closed under it); what
    follows is its deferred function, ending in [t.Stop()]. *)
Definition demuxStep (m : Machine) : option Machine :=
  let t := target m in
  match demuxPc m with
  | DemuxNone => None
  | DemuxCopying => Some (atDemux DemuxDone (withTarget m (wgAdd (-1) t)))
  | DemuxDone => Some (atDemux DemuxClosed m)
  | DemuxClosed => Some (atDemux DemuxStopping (withTarget m (cancel t)))
  | DemuxStopping => if wg t =? 0 then Some (atDemux DemuxReturned m) else None
  | DemuxReturned => None
  end.

(** A line processor as the wait group sees it: its scanner loop ends (end
    of the pipe or a scan error) and the deferred [t.wg.Done()] runs. *)
Definition procStep (pc : ProcPc) (t : Target) : option (ProcPc * Target) :=
  match pc with
  | ProcNone => None
  | ProcScanning => Some (ProcReturned, wgAdd (-1) t)
  | ProcReturned => None
  end.

Definition stdoutStep (m : Machine) : option Machine :=
  match procStep (stdoutPc m) (target m) with
  | Some (pc, t) =>
      Some (mkMachine t (logs m) (loopPc m) (demuxPc m) pc (stderrPc m)
                      (callerPc m) (stopsReturned m))
  | None => None
  end.

Definition stderrStep (m : Machine) : option Machine :=
  match procStep (stderrPc m) (target m) with
  | Some (pc, t) =>
      Some (mkMachine t (logs m) (loopPc m) (demuxPc m) (stdoutPc m) pc
                      (callerPc m) (stopsReturned m))
  | None => None
  end.

(** [Stop] called from outside, one statement at a time: [t.cancel()],
    then [t.wg.Wait()], which lets the caller through once the counter is
    zero. *)
Definition Stop (m : Machine) : option Machine :=
  let t := target m in
  match callerPc m with
  | CallerIdle =>
      Some (mkMachine (cancel t) (logs m) (loopPc m) (demuxPc m) (stdoutPc m)
                      (stderrPc m) CallerWaiting (stopsReturned m))
  | CallerWaiting =>
      if wg t =? 0
      then Some (mkMachine t (logs m) (loopPc m) (demuxPc m) (stdoutPc m)
                           (stderrPc m) CallerIdle (S (stopsReturned m)))
      else None
  end.

Definition step (th : Thread) (m : Machine) : option Machine :=
  match th with
  | ThLoop => processLoop m
  | ThDemux => demuxStep m
  | ThStdout => stdoutStep m
  | ThStderr => stderrStep m
  | ThCaller => Stop m
  end.

(** A schedule picks the goroutine that moves next; one that cannot move
    leaves the machine as it is. *)
Definition run (schedule : list Thread) (m : Machine) : Machine :=
  foldl (fun m th => default m (step th m)) m schedule.

(** The states an execution passes through. *)
Inductive reachable (m0 : Machine) : Machine -> Prop :=
| reachable_start : reachable m0 m0
| reachable_step th m m' :
    reachable m0 m -> step th m = Some m' -> reachable m0 m'.

(** *** What the counters and flags amount to

    The goroutines the wait group counts at a program counter: the loop
    between its [Add] and its deferred [Done], the demultiplexer while it
    copies, a line processor while it scans. *)
Definition loopCounted (pc : LoopPc) : Z :=
  match pc with
  | LoopSpawned | LoopReturned => 0
  | _ => 1
  end.

Definition demuxCounted (pc : DemuxPc) : Z :=
  match pc with
  | DemuxCopying => 1
  | _ => 0
  end.

Definition procCounted (pc : ProcPc) : Z :=
  match pc with
  | ProcScanning => 1
  | _ => 0
  end.

(** The value of the running flag at a program counter of the loop; after
    the loop has returned it depends on how it returned. *)
Definition runningAt (pc : LoopPc) (failed : bool) : bool :=
  match pc with
  | LoopSpawned | LoopAdded => false
  | LoopMarked | LoopFailed | LoopFetched | LoopCopying | LoopStreaming => true
  | LoopUnmarked | LoopClosed => false
  | LoopReturned => failed
  end.

Definition failedAt (pc : LoopPc) (failed : bool) : bool :=
  match pc with
  | LoopFailed => true
  | LoopReturned => failed
  | _ => false
  end.

Definition spawnedAt (pc : LoopPc) (demux : DemuxPc) (out err : ProcPc) : Prop :=
  match pc with
  | LoopSpawned | LoopAdded | LoopMarked | LoopFailed | LoopFetched =>
      demux = DemuxNone /\ out = ProcNone /\ err = ProcNone
  | LoopCopying => demux <> DemuxNone /\ out = ProcNone /\ err = ProcNone
  | LoopStreaming | LoopUnmarked | LoopClosed =>
      demux <> DemuxNone /\ out <> ProcNone /\ err <> ProcNone
  | LoopReturned =>
      (demux = DemuxNone /\ out = ProcNone /\ err = ProcNone)
      \/ (demux <> DemuxNone /\ out <> ProcNone /\ err <> ProcNone)
  end.

Record invariant (m : Machine) : Prop := mkInvariant {
  inv_wg :
    wg (target m)
    = loopCounted (loopPc m) + demuxCounted (demuxPc m)
      + procCounted (stdoutPc m) + procCounted (stderrPc m);
  inv_running :
    running (target m)
    = runningAt (loopPc m) (bool_decide (is_Some (err (target m))));
  inv_err :
    bool_decide (is_Some (err (target m)))
    = failedAt (loopPc m) (bool_decide (is_Some (err (target m))));
  inv_spawned :
    spawnedAt (loopPc m) (demuxPc m) (stdoutPc m) (stderrPc m);
  inv_failed :
    is_Some (err (target m)) -> demuxPc m = DemuxNone
}.

(** The fields of the struct no goroutine assigns. *)
Definition sameConfig (t t' : Target) : Prop :=
  since t' = since t /\ containerName t' = containerName t
  /\ labels t' = labels t /\ relabelConfig t' = relabelConfig t
  /\ client t' = client t.

(** Where the loop can stand, and what [t.err] holds there, when the
    request for the logs fails with [e]. *)
Definition fetchFailedAt (e : error) (pc : LoopPc) (err : option error) : Prop :=
  match pc with
  | LoopSpawned | LoopAdded | LoopMarked => err = None
  | LoopFailed | LoopReturned => err = Some e
  | _ => False
  end.

(** What [logs] holds at a program counter of the loop: nothing before
    the request has succeeded, the open stream while the target streams,
    the closed stream from [logs.Close()] on. *)
Definition logsAt (pc : LoopPc) (failed : bool)
  (l : option (ReadCloser * StreamState)) : Prop :=
  match pc with
  | LoopSpawned | LoopAdded | LoopMarked | LoopFailed => l = None
  | LoopFetched | LoopCopying | LoopStreaming | LoopUnmarked =>
      exists r, l = Some (r, StreamOpen)
  | LoopClosed => exists r, l = Some (r, StreamClosed)
  | LoopReturned =>
      if failed then l = None else exists r, l = Some (r, StreamClosed)
  end.

(** The states in which the teardown of a target is under way or over:
    the loop is past [<-ctx.Done()], the demultiplexer or a caller is in or
    past [Stop]. *)
Definition teardownBegun (m : Machine) : Prop :=
  loopPc m = LoopUnmarked \/ loopPc m = LoopClosed
  \/ (loopPc m = LoopReturned /\ err (target m) = None)
  \/ demuxPc m = DemuxStopping \/ demuxPc m = DemuxReturned
  \/ callerPc m = CallerWaiting \/ (0 < stopsReturned m)%nat.

(** The entry the loop body of [process] sends for a line, if it sends
    one. *)
Definition lineEntry (t : Target) (logStream : string) (line : string)
  : option Entry :=
  match extractTs Now line with
  | (_, _, Some _) => None
  | (ts, text, None) => Some (entryFor t logStream ts text)
  end.

(** * Properties *)

(** ** Splitting at the first blank *)

Lemma append_nil_l s : EmptyString +:+ s = s.
Proof. reflexivity. Qed.

Lemma append_cons c s s' : String c s +:+ s' = String c (s +:+ s').
Proof. reflexivity. Qed.

Lemma prefix_blank c s :
  String.prefix " " (String c s) = Ascii.eqb c " ".
Proof.
  change (String.prefix " " (String c s))
    with (match ascii_dec " " c with
          | left _ => String.prefix EmptyString s
          | right _ => false
          end).
  destruct (ascii_dec " " c) as [<-|Hne].
  - by destruct s.
  - symmetry. apply Ascii.eqb_neq. congruence.
Qed.

Lemma Cut_blank_cons c s :
  strings.Cut (String c s) " "
  = if Ascii.eqb c " " then Some (EmptyString, s)
    else match strings.Cut s " " with
         | Some (before, after) => Some (String c before, after)
         | None => None
         end.
Proof.
  change (strings.Cut (String c s) " ")
    with (if String.prefix " " (String c s)
          then Some (EmptyString, strings.drop (String.length " ") (String c s))
          else match strings.Cut s " " with
               | Some (before, after) => Some (String c before, after)
               | None => None
               end).
  by rewrite prefix_blank.
Qed.

Lemma Cut_blank_nil : strings.Cut EmptyString " " = None.
Proof. reflexivity. Qed.

Lemma Cut_no_blank s :
  strings.ContainsBlank s = false -> strings.Cut s " " = None.
Proof.
  induction s as [|c s IH]; [done|].
  rewrite Cut_blank_cons. cbn [strings.ContainsBlank].
  intros [Hc Hs]%orb_false_iff. by rewrite Hc, IH.
Qed.

Lemma Cut_first_blank token rest :
  strings.ContainsBlank token = false ->
  strings.Cut (token +:+ " " +:+ rest) " " = Some (token, rest).
Proof.
  induction token as [|c token IH].
  - intros _. by rewrite append_nil_l, append_cons, Cut_blank_cons.
  - cbn [strings.ContainsBlank]. intros [Hc Hs]%orb_false_iff.
    rewrite append_cons, Cut_blank_cons, Hc. by rewrite (IH Hs).
Qed.

Lemma Cut_blank_inv s token rest :
  strings.Cut s " " = Some (token, rest) ->
  s = token +:+ " " +:+ rest /\ strings.ContainsBlank token = false.
Proof.
  revert token. induction s as [|c s IH]; intros token; [done|].
  rewrite Cut_blank_cons. destruct (Ascii.eqb c " ") eqn:Hc.
  - intros [= <- <-]. apply Ascii.eqb_eq in Hc as ->. done.
  - destruct (strings.Cut s " ") as [[before after]|] eqn:Hcut; [|done].
    intros [= <- <-]. destruct (IH _ eq_refl) as [-> Hb].
    split; [done|]. cbn [strings.ContainsBlank]. by rewrite Hc, Hb.
Qed.

Lemma Cut_blank_is_Some s :
  strings.ContainsBlank s = true -> is_Some (strings.Cut s " ").
Proof.
  destruct (strings.Cut s " ") eqn:Hcut; [by eexists|].
  intros Hb. exfalso. revert Hb Hcut.
  induction s as [|c s IH]; [done|].
  rewrite Cut_blank_cons. cbn [strings.ContainsBlank].
  destruct (Ascii.eqb c " "); [done|]. simpl.
  destruct (strings.Cut s " ") as [[??]|]; [done|]. auto.
Qed.

Lemma ContainsSpace_blank s :
  strings.ContainsSpace s = false -> strings.ContainsBlank s = false.
Proof.
  induction s as [|c s IH]; [done|].
  cbn [strings.ContainsSpace strings.ContainsBlank].
  intros [Hc Hs]%orb_false_iff. rewrite (IH Hs), orb_false_r.
  apply Ascii.eqb_neq. intros ->. done.
Qed.

Lemma SplitN_blank_2 s :
  strings.SplitN s " " 2
  = match strings.Cut s " " with
    | Some (token, rest) => [token; rest]
    | None => [s]
    end.
Proof. simpl. by destruct (strings.Cut s " ") as [[??]|]. Qed.

(** ** What [time.Parse] consumes

    Every chunk of the layout reads digits or one of a few punctuation
    marks, never a blank: the input before and after a chunk contain a
    blank, or none, together. *)

Lemma bind_Ok {E A B : Type} (r : result E A) (k : A -> result E B) b :
  r ≫= k = Ok b -> exists a, r = Ok a /\ k a = Ok b.
Proof. destruct r as [a|e]; [|done]. intros Hk. by exists a. Qed.

Lemma chunk_Ok {A : Type} elem value (o : option A) a :
  time.chunk elem value o = Ok a -> o = Some a.
Proof. destruct o; [|done]. by intros [= ->]. Qed.

Lemma inRange_Ok what ok u : time.inRange what ok = Ok u -> ok = true.
Proof. by destruct ok. Qed.

Lemma digit_not_blank c d : time.digit c = Some d -> Ascii.eqb c " " = false.
Proof.
  intros Hd. apply Ascii.eqb_neq. intros ->. discriminate Hd.
Qed.

Lemma parseYear_blank value year rest :
  time.parseYear value = Some (year, rest) ->
  strings.ContainsBlank value = strings.ContainsBlank rest.
Proof.
  unfold time.parseYear.
  destruct value as [|a [|b [|c [|d value]]]]; try done.
  destruct (time.digit a) eqn:Ha, (time.digit b) eqn:Hb,
    (time.digit c) eqn:Hc, (time.digit d) eqn:Hd; try done.
  intros [= _ <-]. cbn [strings.ContainsBlank].
  by rewrite (digit_not_blank _ _ Ha), (digit_not_blank _ _ Hb),
    (digit_not_blank _ _ Hc), (digit_not_blank _ _ Hd).
Qed.

Lemma getnum_blank value fixed n rest :
  time.getnum value fixed = Some (n, rest) ->
  strings.ContainsBlank value = strings.ContainsBlank rest.
Proof.
  unfold time.getnum. destruct value as [|a value]; [done|].
  destruct (time.digit a) eqn:Ha; [|done].
  cbn [strings.ContainsBlank]. rewrite (digit_not_blank _ _ Ha).
  destruct value as [|b value].
  - destruct fixed; [done|]. by intros [= _ <-].
  - destruct (time.digit b) eqn:Hb.
    + intros [= _ <-]. cbn [strings.ContainsBlank].
      by rewrite (digit_not_blank _ _ Hb).
    + destruct fixed; [done|]. by intros [= _ <-].
Qed.

Lemma getnum_two_digits a b n rest :
  time.getnum (String a (String b EmptyString)) true = Some (n, rest) ->
  Ascii.eqb a " " = false /\ Ascii.eqb b " " = false.
Proof.
  unfold time.getnum.
  destruct (time.digit a) eqn:Ha; [|done].
  destruct (time.digit b) eqn:Hb; [|done].
  eauto using digit_not_blank.
Qed.

Lemma skip_blank value prefix rest :
  time.skip value prefix = Some rest ->
  strings.ContainsBlank prefix = false ->
  strings.ContainsBlank value = strings.ContainsBlank rest.
Proof.
  revert value. induction prefix as [|p prefix IH]; intros value.
  - cbn [time.skip]. by intros [= <-].
  - destruct value as [|v value]; [done|]. cbn [time.skip].
    destruct (Ascii.eqb v p) eqn:Hv; [|done].
    apply Ascii.eqb_eq in Hv as ->.
    cbn [strings.ContainsBlank]. intros Hs [Hp Hpre]%orb_false_iff.
    rewrite Hp. by apply IH.
Qed.

Lemma dropDigits_blank s :
  strings.ContainsBlank s = strings.ContainsBlank (time.dropDigits s).
Proof.
  induction s as [|c s IH]; [done|]. cbn [time.dropDigits].
  destruct (time.digit c) eqn:Hc; [|done].
  cbn [strings.ContainsBlank]. by rewrite (digit_not_blank _ _ Hc).
Qed.

Lemma parseFrac_blank value nsec rest :
  time.parseFrac value = (nsec, rest) ->
  strings.ContainsBlank value = strings.ContainsBlank rest.
Proof.
  unfold time.parseFrac. destruct value as [|p digits]; [by intros [= _ <-]|].
  destruct (time.commaOrPeriod p && time.isDigit digits) eqn:Hp.
  - intros [= _ <-]. apply andb_true_iff in Hp as [Hp _].
    cbn [strings.ContainsBlank]. rewrite <- dropDigits_blank.
    assert (Ascii.eqb p " " = false) as ->; [|done].
    apply Ascii.eqb_neq. intros ->. discriminate Hp.
  - by intros [= _ <-].
Qed.

Lemma parseZone_blank value zone rest :
  time.parseZone value = Ok (zone, rest) ->
  strings.ContainsBlank value = strings.ContainsBlank rest.
Proof.
  unfold time.parseZone.
  destruct value as [|sign value]; [done|].
  destruct (Ascii.eqb sign "Z") eqn:HZ.
  { apply Ascii.eqb_eq in HZ as ->. by intros [= _ <-]. }
  assert (forall r : result time.ParseError (option Z * string),
    match sign with "Z"%char => Ok (None, value) | _ => r end = r) as Hsign.
  { intros r. apply Ascii.eqb_neq in HZ.
    destruct sign as [[] [] [] [] [] [] [] []]; done. }
  destruct value as [|h1 [|h2 [|colon [|m1 [|m2 value]]]]];
    try (rewrite Hsign; done).
  rewrite Hsign. destruct (Ascii.eqb colon ":") eqn:Hcolon; [|done].
  apply Ascii.eqb_eq in Hcolon as ->. cbn [negb].
  intros ([hr ?] & Hhr%chunk_Ok & Hk)%bind_Ok.
  apply bind_Ok in Hk as ([mm ?] & Hmm%chunk_Ok & Hk).
  apply bind_Ok in Hk as (_ & _ & Hk).
  apply bind_Ok in Hk as (_ & _ & Hk).
  apply getnum_two_digits in Hhr as [Hh1 Hh2].
  apply getnum_two_digits in Hmm as [Hm1 Hm2].
  cbn [strings.ContainsBlank]. rewrite Hh1, Hh2, Hm1, Hm2.
  destruct (Ascii.eqb sign "+") eqn:Hplus.
  { apply Ascii.eqb_eq in Hplus as ->. by injection Hk as _ <-. }
  destruct (Ascii.eqb sign "-") eqn:Hminus; [|done].
  apply Ascii.eqb_eq in Hminus as ->. by injection Hk as _ <-.
Qed.

Lemma Parse_no_blank token ts :
  time.Parse token = Ok ts -> strings.ContainsBlank token = false.
Proof.
  unfold time.Parse. intros Hk.
  apply bind_Ok in Hk as ([year v1] & Hyear%chunk_Ok & Hk).
  apply bind_Ok in Hk as (v2 & Hs1%chunk_Ok & Hk).
  apply bind_Ok in Hk as ([month v3] & Hmonth%chunk_Ok & Hk).
  apply bind_Ok in Hk as (_ & _ & Hk).
  apply bind_Ok in Hk as (v4 & Hs2%chunk_Ok & Hk).
  apply bind_Ok in Hk as ([day v5] & Hday%chunk_Ok & Hk).
  apply bind_Ok in Hk as (v6 & Hs3%chunk_Ok & Hk).
  apply bind_Ok in Hk as ([hour v7] & Hhour%chunk_Ok & Hk).
  apply bind_Ok in Hk as (_ & _ & Hk).
  apply bind_Ok in Hk as (v8 & Hs4%chunk_Ok & Hk).
  apply bind_Ok in Hk as ([min v9] & Hmin%chunk_Ok & Hk).
  apply bind_Ok in Hk as (_ & _ & Hk).
  apply bind_Ok in Hk as (v10 & Hs5%chunk_Ok & Hk).
  apply bind_Ok in Hk as ([sec v11] & Hsec%chunk_Ok & Hk).
  apply bind_Ok in Hk as (_ & _ & Hk).
  destruct (time.parseFrac v11) as [nsec v12] eqn:Hfrac.
  apply bind_Ok in Hk as ([zone v13] & Hzone & Hk).
  destruct v13 as [|c v13]; [|done].
  rewrite (parseYear_blank _ _ _ Hyear), (skip_blank _ _ _ Hs1 eq_refl),
    (getnum_blank _ _ _ _ Hmonth), (skip_blank _ _ _ Hs2 eq_refl),
    (getnum_blank _ _ _ _ Hday), (skip_blank _ _ _ Hs3 eq_refl),
    (getnum_blank _ _ _ _ Hhour), (skip_blank _ _ _ Hs4 eq_refl),
    (getnum_blank _ _ _ _ Hmin), (skip_blank _ _ _ Hs5 eq_refl),
    (getnum_blank _ _ _ _ Hsec), (parseFrac_blank _ _ _ Hfrac),
    (parseZone_blank _ _ _ Hzone).
  done.
Qed.

(** ** extractTs *)

Lemma extractTs_Cut now line :
  extractTs now line
  = match strings.Cut line " " with
    | Some (token, rest) =>
        match time.Parse token with
        | Ok ts => (ts, rest, None)
        | Failed err => (now, line, Some (errBadTimestamp token err))
        end
    | None => (now, line, Some (errNoTimestamp line))
    end.
Proof.
  unfold extractTs. rewrite SplitN_blank_2.
  by destruct (strings.Cut line " ") as [[??]|].
Qed.

(** C4. A line made of a token that parses as a timestamp in the layout,
    one blank and any text yields that timestamp, the text and no error;
    the line "2023-01-01T00:00:00.000000000Z hello" yields
    2023-01-01T00:00:00Z in UTC (unix time 1672531200, no nanoseconds) and
    the body "hello". *)
Theorem extractTs_timestamped_line :
  (forall now token text ts,
     time.Parse token = Ok ts ->
     extractTs now (token +:+ " " +:+ text) = (ts, text, None))
  /\ (forall now,
        extractTs now "2023-01-01T00:00:00.000000000Z hello"
        = (time.mkTime 1672531200 0 time.UTC, "hello", None)).
Proof.
  split.
  - intros now token text ts Hparse.
    rewrite extractTs_Cut, Cut_first_blank by eauto using Parse_no_blank.
    by rewrite Hparse.
  - intros now. reflexivity.
Qed.

(** C6, as the code has it. The split error is returned exactly for the
    lines without a blank (the byte 0x20); a line with a blank splits at
    its first blank into a token without blanks and the remainder, and the
    token is what is parsed as the timestamp. *)
Theorem extractTs_split_at_first_blank now line :
  (extractTs now line = (now, line, Some (errNoTimestamp line))
   <-> strings.ContainsBlank line = false)
  /\ (strings.ContainsBlank line = true ->
      exists token rest,
        line = token +:+ " " +:+ rest
        /\ strings.ContainsBlank token = false
        /\ strings.SplitN line " " 2 = [token; rest]
        /\ extractTs now line
           = match time.Parse token with
             | Ok ts => (ts, rest, None)
             | Failed err => (now, line, Some (errBadTimestamp token err))
             end).
Proof.
  rewrite extractTs_Cut, SplitN_blank_2. split; [split|].
  - destruct (strings.Cut line " ") as [[token rest]|] eqn:Hcut.
    + destruct (time.Parse token); done.
    + intros _. destruct (strings.ContainsBlank line) eqn:Hb; [|done].
      apply Cut_blank_is_Some in Hb as [? Hb]. congruence.
  - intros Hb. by rewrite (Cut_no_blank _ Hb).
  - intros [[token rest] Hcut]%Cut_blank_is_Some. rewrite Hcut.
    apply Cut_blank_inv in Hcut as [-> Htoken]. by exists token, rest.
Qed.

(** ** The line processor *)

Lemma process_app t before after stream w :
  process t (before ++ after) stream w
  = process t after stream (process t before stream w).
Proof. unfold process. apply foldl_app. Qed.

Lemma process_cons t line lines stream w :
  process t (line :: lines) stream w
  = process t lines stream (processLine t stream w line).
Proof. reflexivity. Qed.

Lemma processLine_error t stream w line e :
  (extractTs Now line).2 = Some e -> processLine t stream w line = countError w.
Proof.
  unfold processLine. destruct (extractTs Now line) as [[ts text] [e'|]]; done.
Qed.

Lemma processLine_ok t stream w line ts text :
  extractTs Now line = (ts, text, None) ->
  processLine t stream w line = forward t stream w ts text.
Proof. unfold processLine. by intros ->. Qed.

(** Counting an error commutes with everything the processor does
    later: no step reads the counters. *)
Lemma processLine_countError t stream w line :
  processLine t stream (countError w) line
  = countError (processLine t stream w line).
Proof.
  unfold processLine.
  destruct (extractTs Now line) as [[ts text] [e|]]; reflexivity.
Qed.

Lemma process_countError t lines stream w :
  process t lines stream (countError w)
  = countError (process t lines stream w).
Proof.
  revert w. induction lines as [|line lines IH]; intros w; [done|].
  by rewrite !process_cons, processLine_countError, IH.
Qed.

Lemma process_skip t before bad after stream w e :
  (extractTs Now bad).2 = Some e ->
  process t (before ++ bad :: after) stream w
  = countError (process t (before ++ after) stream w).
Proof.
  intros Hbad.
  rewrite !process_app, process_cons, (processLine_error _ _ _ _ _ Hbad).
  apply process_countError.
Qed.

Lemma wellFormed_extractTs now line :
  wellFormed line -> exists ts text, extractTs now line = (ts, text, None).
Proof.
  intros (token & text & ts & -> & Hparse). exists ts, text.
  rewrite extractTs_Cut, Cut_first_blank by eauto using Parse_no_blank.
  by rewrite Hparse.
Qed.

Lemma malformed_extractTs now line :
  malformed line -> exists e, extractTs now line = (now, line, Some e).
Proof.
  rewrite extractTs_Cut.
  intros [Hsp|(token & rest & err & Hcut & Hparse)].
  - rewrite Cut_no_blank by done. by eexists.
  - rewrite Hcut, Hparse. by eexists.
Qed.

(** Every failure of [extractTs], at the split or at the parse, is the
    failure of a malformed line. *)
Lemma extractTs_error_malformed now line e :
  (extractTs now line).2 = Some e -> malformed line.
Proof.
  rewrite extractTs_Cut.
  destruct (strings.Cut line " ") as [[token rest]|] eqn:Hcut.
  - destruct (time.Parse token) as [ts|err] eqn:Hparse; [done|].
    intros _. right. by exists token, rest, err.
  - intros _. left.
    destruct (strings.ContainsBlank line) eqn:Hb; [|done].
    apply Cut_blank_is_Some in Hb as [? Hb]. congruence.
Qed.

(** A line is malformed or well-formed, and never both. *)
Lemma malformed_not_wellFormed line : malformed line <-> ~ wellFormed line.
Proof.
  split.
  - intros [e He]%(malformed_extractTs (time.mkTime 0 0 time.UTC)).
    intros (ts & text & Hok)%(wellFormed_extractTs (time.mkTime 0 0 time.UTC)).
    congruence.
  - intros Hnot.
    destruct (strings.Cut line " ") as [[token rest]|] eqn:Hcut.
    + destruct (time.Parse token) as [ts|err] eqn:Hparse.
      * destruct Hnot. exists token, rest, ts.
        by destruct (Cut_blank_inv _ _ _ Hcut) as [-> _].
      * right. by exists token, rest, err.
    + left. destruct (strings.ContainsBlank line) eqn:Hb; [|done].
      apply Cut_blank_is_Some in Hb as [? Hb]. congruence.
Qed.

Lemma process_wellFormed t lines stream w :
  Forall wellFormed lines ->
  length (sent (process t lines stream w)) = (length (sent w) + length lines)%nat
  /\ dockerEntries (metrics (process t lines stream w))
     = dockerEntries (metrics w) + Z.of_nat (length lines)
  /\ dockerErrors (metrics (process t lines stream w))
     = dockerErrors (metrics w).
Proof.
  intros Hall. revert w.
  induction Hall as [|line lines Hline _ IH]; intros w.
  - cbn. lia.
  - destruct (wellFormed_extractTs Now _ Hline) as (ts & text & Hts).
    rewrite process_cons, (processLine_ok _ _ _ _ _ _ Hts).
    destruct (IH (forward t stream w ts text)) as (-> & -> & ->).
    cbn. rewrite length_app. cbn. lia.
Qed.

(** C5. The malformed lines are all the lines on which extraction fails:
    a line without any white space is malformed, so is every other line
    without a blank (one whose only white space is a tab, say), so is a
    line whose token before the first blank does not parse; a line is
    malformed exactly when [extractTs] returns an error on it, and exactly
    when it is not well-formed.  Every malformed line comes back from
    [extractTs] with an error and the whole line, whichever of the two
    failures it is; the processor answers either by counting one error and
    nothing else: the entries sent, the entries counted and the position
    store are what they would be without the line, also for the lines that
    follow; [N] well-formed lines and one malformed line give [N] entries
    and one error. *)
Theorem process_skips_malformed_line :
  (forall line, strings.ContainsSpace line = false -> malformed line)
  /\ (forall now line,
        malformed line <-> exists e, (extractTs now line).2 = Some e)
  /\ (forall line, malformed line <-> ~ wellFormed line)
  /\ (forall now line,
        malformed line -> exists e, extractTs now line = (now, line, Some e))
  /\ (forall t stream w bad,
        malformed bad -> processLine t stream w bad = countError w)
  /\ (forall t stream w before bad after,
        malformed bad ->
        let w' := process t (before ++ bad :: after) stream w in
        let w0 := process t (before ++ after) stream w in
        sent w' = sent w0
        /\ positions w' = positions w0
        /\ dockerEntries (metrics w') = dockerEntries (metrics w0)
        /\ dockerErrors (metrics w') = dockerErrors (metrics w0) + 1)
  /\ (forall t stream w before bad after,
        Forall wellFormed (before ++ after) -> malformed bad ->
        let w' := process t (before ++ bad :: after) stream w in
        length (sent w')
        = (length (sent w) + length (before ++ after))%nat
        /\ dockerErrors (metrics w') = dockerErrors (metrics w) + 1).
Proof.
  split; [|split; [|split; [|split; [|split; [|split]]]]].
  - intros line Hsp. left. by apply ContainsSpace_blank.
  - intros now line. split.
    + intros [e He]%(malformed_extractTs now). exists e. by rewrite He.
    + intros [e He]. by apply extractTs_error_malformed with now e.
  - apply malformed_not_wellFormed.
  - apply malformed_extractTs.
  - intros t stream w bad [e He]%(malformed_extractTs Now).
    apply processLine_error with e. by rewrite He.
  - intros t stream w before bad after [e He]%(malformed_extractTs Now).
    cbn zeta. rewrite (process_skip _ _ _ _ _ _ e) by (by rewrite He). done.
  - intros t stream w before bad after Hgood [e He]%(malformed_extractTs Now).
    cbn zeta. rewrite (process_skip _ _ _ _ _ _ e) by (by rewrite He).
    destruct (process_wellFormed t _ stream w Hgood) as (Hlen & _ & Herr).
    cbn. by rewrite Hlen, Herr.
Qed.

(** ** Labels *)

Lemma filterLabels_acc processed (acc : gmap string string) name :
  is_Some (foldl (fun filtered lbl =>
                    if strings.HasPrefix (labels.Name lbl) "__" then filtered
                    else <[labels.Name lbl := labels.Value lbl]> filtered)
                 acc processed !! name) ->
  is_Some (acc !! name) \/ strings.HasPrefix name "__" = false.
Proof.
  revert acc. induction processed as [|lbl processed IH]; intros acc; [by left|].
  cbn [foldl]. intros [Hacc|Hname]%IH; [|by right].
  destruct (strings.HasPrefix (labels.Name lbl) "__") eqn:Hlbl; [by left|].
  destruct (decide (labels.Name lbl = name)) as [<-|Hne]; [by right|].
  left. by rewrite lookup_insert_ne in Hacc.
Qed.

Lemma filterLabels_no_reserved processed name :
  is_Some (filterLabels processed !! name) ->
  strings.HasPrefix name "__" = false.
Proof.
  intros [Hempty|Hname]%filterLabels_acc; [|done].
  rewrite lookup_empty in Hempty. by destruct Hempty.
Qed.

Lemma sent_processLine t stream w line e :
  e ∈ sent (processLine t stream w line) ->
  e ∈ sent w \/ exists ts text, e = entryFor t stream ts text.
Proof.
  unfold processLine.
  destruct (extractTs Now line) as [[ts text] [err|]]; cbn; [by left|].
  intros [He|He%list_elem_of_singleton]%elem_of_app; [by left|].
  right. by exists ts, text.
Qed.

Lemma sent_process t lines stream w e :
  e ∈ sent (process t lines stream w) ->
  e ∈ sent w \/ exists ts text, e = entryFor t stream ts text.
Proof.
  revert w. induction lines as [|line lines IH]; intros w; [by left|].
  rewrite process_cons. intros [He|He]%IH; [|by right].
  by apply sent_processLine in He.
Qed.

(** C7. Whatever the relabel rules return and whatever the target's labels
    and the lines are, an entry the processor sends carries no label whose
    name starts with two underscores. *)
Theorem forwarded_labels_not_reserved t lines stream w e name :
  e ∈ sent (process t lines stream w) ->
  e ∉ sent w ->
  is_Some (Labels e !! name) ->
  strings.HasPrefix name "__" = false.
Proof.
  intros [He|(ts & text & ->)]%sent_process Hnew; [done|].
  apply filterLabels_no_reserved.
Qed.

(** C8. A line whose timestamp is extracted makes the processor send one
    entry with that timestamp and text, count one entry, and put the
    timestamp's unix seconds under the container's key, whatever was stored
    there; three such lines in a row give three entries in the order of the
    lines, and the cursor read back afterwards is the third line's. *)
Theorem process_overwrites_cursor :
  (forall t stream w line ts text,
     extractTs Now line = (ts, text, None) ->
     let w' := processLine t stream w line in
     sent w' = sent w ++ [entryFor t stream ts text]
     /\ Timestamp (entryFor t stream ts text) = ts
     /\ Line (entryFor t stream ts text) = text
     /\ dockerEntries (metrics w') = dockerEntries (metrics w) + 1
     /\ positions w'
        = Put (positions w) (CursorKey (containerName t)) (time.Unix ts)
     /\ Get (positions w') (CursorKey (containerName t)) = Ok (time.Unix ts))
  /\ (forall t stream w l1 l2 l3 t1 t2 t3 x1 x2 x3,
        extractTs Now l1 = (t1, x1, None) ->
        extractTs Now l2 = (t2, x2, None) ->
        extractTs Now l3 = (t3, x3, None) ->
        let w' := process t [l1; l2; l3] stream w in
        sent w'
        = sent w ++ [entryFor t stream t1 x1; entryFor t stream t2 x2;
                     entryFor t stream t3 x3]
        /\ dockerEntries (metrics w') = dockerEntries (metrics w) + 3
        /\ Get (positions w') (CursorKey (containerName t))
           = Ok (time.Unix t3)).
Proof.
  split.
  - intros t stream w line ts text Hts. cbn zeta.
    rewrite (processLine_ok _ _ _ _ _ _ Hts). cbn.
    by rewrite Get_Put.
  - intros t stream w l1 l2 l3 t1 t2 t3 x1 x2 x3 H1 H2 H3. cbn zeta.
    rewrite !process_cons, (processLine_ok _ _ _ _ _ _ H1),
      (processLine_ok _ _ _ _ _ _ H2), (processLine_ok _ _ _ _ _ _ H3).
    cbn. rewrite Get_Put, <- !(assoc_L (++)). split; [done|]. split; [lia|done].
Qed.

(** ** The label builder *)

Lemma setAdd_elem adds n v : labels.mkLabel n v ∈ labels.setAdd adds n v.
Proof.
  induction adds as [|a adds IH]; cbn; [apply list_elem_of_here|].
  destruct (String.eqb (labels.Name a) n);
    [apply list_elem_of_here|by apply list_elem_of_further].
Qed.

Lemma setAdd_names adds n v :
  labels.Name <$> labels.setAdd adds n v
  = if decide (n ∈ labels.Name <$> adds) then labels.Name <$> adds
    else (labels.Name <$> adds) ++ [n].
Proof.
  induction adds as [|a adds IH]; [done|]. cbn [labels.setAdd].
  destruct (String.eqb_spec (labels.Name a) n) as [<-|Hne].
  - rewrite decide_True by apply list_elem_of_here. done.
  - rewrite !fmap_cons, IH.
    destruct (decide (n ∈ labels.Name <$> adds)) as [Hin|Hnin].
    + by rewrite decide_True by (by apply list_elem_of_further).
    + rewrite decide_False; [done|].
      intros [?|?]%elem_of_cons; congruence.
Qed.

Lemma setAdd_NoDup adds n v :
  NoDup (labels.Name <$> adds) ->
  NoDup (labels.Name <$> labels.setAdd adds n v).
Proof.
  intros Hnd. rewrite setAdd_names. case_decide as Hin; [done|].
  apply NoDup_app. split; [done|]. split; [|apply NoDup_singleton].
  intros x Hx ->%list_elem_of_singleton. done.
Qed.

Lemma names_unique (ls : list labels.Label) a b :
  NoDup (labels.Name <$> ls) ->
  a ∈ ls -> b ∈ ls -> labels.Name a = labels.Name b -> a = b.
Proof.
  induction ls as [|l ls IH]; [by intros _ ?%elem_of_nil|].
  rewrite fmap_cons, NoDup_cons. intros [Hl Hnd].
  intros [->|Ha]%elem_of_cons [->|Hb]%elem_of_cons Hname; [done|..].
  - destruct Hl. rewrite Hname. by apply list_elem_of_fmap_2.
  - destruct Hl. rewrite <- Hname. by apply list_elem_of_fmap_2.
  - by apply IH.
Qed.

Lemma Set_base b n v : labels.base (labels.Set_ b n v) = labels.base b.
Proof. unfold labels.Set_. by destruct (String.eqb v EmptyString). Qed.

Lemma Set_NoDup b n v :
  NoDup (labels.Name <$> labels.add b) ->
  NoDup (labels.Name <$> labels.add (labels.Set_ b n v)).
Proof.
  intros Hnd. unfold labels.Set_. destruct (String.eqb v EmptyString); cbn.
  - eapply sublist_NoDup; [exact Hnd|]. apply fmap_sublist, sublist_filter.
  - by apply setAdd_NoDup.
Qed.

Lemma Set_fold labelSet b :
  labels.base b = [] -> NoDup (labels.Name <$> labels.add b) ->
  let lb := foldl (fun lb kv => labels.Set_ lb kv.1 kv.2) b labelSet in
  labels.base lb = [] /\ NoDup (labels.Name <$> labels.add lb).
Proof.
  revert b. induction labelSet as [|[k v] labelSet IH]; intros b Hbase Hnd.
  - done.
  - cbn [foldl]. apply IH; [by rewrite Set_base|by apply Set_NoDup].
Qed.

Lemma Builder_Labels_add b :
  labels.base b = [] -> labels.Builder_Labels b ≡ₚ labels.add b.
Proof.
  intros Hbase. unfold labels.Builder_Labels. rewrite Hbase.
  destruct (labels.del b), (labels.add b); try done;
    by rewrite merge_sort_Permutation.
Qed.

(** *** The order of [range] over the label map does not matter *)

#[local] Instance Less_trans : Transitive labels.Less.
Proof. intros a b c. unfold labels.Less. apply transitivity. Qed.

#[local] Instance Less_total : Total labels.Less.
Proof. intros a b. unfold labels.Less. apply total. apply _. Qed.

Lemma filter_other_names (adds : labels.Labels) n :
  n ∉ labels.Name <$> adds ->
  filter (fun a => labels.Name a <> n) adds = adds.
Proof.
  induction adds as [|a adds IH]; [done|].
  rewrite fmap_cons, not_elem_of_cons. intros [Hne Hnin].
  rewrite filter_cons_True by done. by rewrite IH.
Qed.

Lemma setAdd_fresh adds n v :
  n ∉ labels.Name <$> adds ->
  labels.setAdd adds n v = adds ++ [labels.mkLabel n v].
Proof.
  induction adds as [|a adds IH]; [done|].
  rewrite fmap_cons, not_elem_of_cons. intros [Hne Hnin]. cbn.
  destruct (String.eqb_spec (labels.Name a) n) as [Heq|_]; [done|].
  by rewrite IH.
Qed.

Lemma setAdd_Permutation adds n v :
  NoDup (labels.Name <$> adds) ->
  labels.setAdd adds n v
  ≡ₚ labels.mkLabel n v :: filter (fun a => labels.Name a <> n) adds.
Proof.
  induction adds as [|a adds IH]; [done|].
  rewrite fmap_cons, NoDup_cons. intros [Ha Hnd]. cbn [labels.setAdd].
  destruct (String.eqb_spec (labels.Name a) n) as [Heq|Hne].
  - rewrite filter_cons_False by (by intros []).
    rewrite filter_other_names by (by rewrite <- Heq). done.
  - rewrite filter_cons_True by done. rewrite IH by done. apply Permutation_swap.
Qed.

(** The additions a builder over an empty base has collected from labels
    with distinct names: those with a value, in the order of setting. *)
Lemma Set_fold_add labelSet b :
  NoDup (labelSet.*1) ->
  (forall k, k ∈ labelSet.*1 -> k ∉ labels.Name <$> labels.add b) ->
  labels.add (foldl (fun lb kv => labels.Set_ lb kv.1 kv.2) b labelSet)
  = labels.add b
    ++ ((fun kv => labels.mkLabel kv.1 kv.2)
          <$> filter (fun kv => kv.2 <> EmptyString) labelSet).
Proof.
  revert b. induction labelSet as [|[k v] labelSet IH]; intros b Hnd Hfresh.
  { by rewrite app_nil_r. }
  rewrite fmap_cons, NoDup_cons in Hnd. destruct Hnd as [Hk Hnd].
  cbn [foldl fst snd]. unfold labels.Set_ at 2.
  assert (k ∉ labels.Name <$> labels.add b) as Hkb
    by (apply Hfresh; apply list_elem_of_here).
  destruct (String.eqb_spec v EmptyString) as [->|Hv].
  - rewrite IH; cbn.
    + rewrite filter_other_names by done.
      by rewrite decide_False by (by intros []).
    + done.
    + intros k' Hk'. rewrite filter_other_names by done.
      apply Hfresh. by apply list_elem_of_further.
  - rewrite IH; cbn.
    + rewrite setAdd_fresh by done. rewrite decide_True by done.
      by rewrite <- (assoc_L (++)).
    + done.
    + intros k' Hk'. rewrite setAdd_fresh, fmap_app by done.
      intros [Hin|Heq%list_elem_of_singleton]%elem_of_app.
      * by apply (Hfresh k'); [apply list_elem_of_further|].
      * cbn in Heq. by subst k'.
Qed.

Lemma Builder_Labels_sort b :
  labels.base b = [] ->
  labels.Builder_Labels b = merge_sort labels.Less (labels.add b).
Proof.
  intros Hbase. unfold labels.Builder_Labels. rewrite Hbase.
  by destruct (labels.del b), (labels.add b).
Qed.

Lemma merge_sort_names (l1 l2 : labels.Labels) :
  NoDup (labels.Name <$> l1) -> l1 ≡ₚ l2 ->
  merge_sort labels.Less l1 = merge_sort labels.Less l2.
Proof.
  intros Hnd Hperm. apply (Sorted_unique_strong labels.Less).
  - intros x1 x2 Hx1 Hx2 H12 H21.
    rewrite merge_sort_Permutation in Hx1, Hx2. rewrite <- Hperm in Hx2.
    apply (names_unique l1); [done..|].
    unfold labels.Less in H12, H21. by apply (anti_symm String.le).
  - apply Sorted_merge_sort, _.
  - apply Sorted_merge_sort, _.
  - by rewrite !merge_sort_Permutation.
Qed.

Lemma streamLabels_order l1 l2 stream :
  NoDup (l1.*1) -> l1 ≡ₚ l2 ->
  streamLabels l1 stream = streamLabels l2 stream.
Proof.
  intros Hnd Hperm. unfold streamLabels.
  assert (NoDup (l2.*1)) as Hnd2 by (by rewrite <- Hperm).
  destruct (Set_fold l1 (labels.NewBuilder []) eq_refl (NoDup_nil_2))
    as [Hbase1 Hadd1].
  destruct (Set_fold l2 (labels.NewBuilder []) eq_refl (NoDup_nil_2))
    as [Hbase2 Hadd2].
  pose proof (Set_fold_add l1 (labels.NewBuilder []) Hnd
                (fun _ _ => not_elem_of_nil _)) as Hl1.
  pose proof (Set_fold_add l2 (labels.NewBuilder []) Hnd2
                (fun _ _ => not_elem_of_nil _)) as Hl2.
  cbn [labels.add labels.NewBuilder app] in Hl1, Hl2.
  set (b1 := foldl _ _ l1) in *. set (b2 := foldl _ _ l2) in *.
  assert (labels.add b1 ≡ₚ labels.add b2) as Hadds
    by (by rewrite Hl1, Hl2, Hperm).
  rewrite !Builder_Labels_sort by (by rewrite Set_base).
  apply merge_sort_names; [by apply Set_NoDup|].
  unfold labels.Set_. destruct (String.eqb stream EmptyString); cbn.
  - by rewrite Hadds.
  - rewrite !setAdd_Permutation by done. by rewrite Hadds.
Qed.

(** X10. The label set handed to the relabel engine does not depend on
    the order in which [range] walks the target's label map. *)
Lemma streamLabels_range (lbls : gmap string string) order stream :
  order ≡ₚ map_to_list lbls ->
  streamLabels order stream = streamLabels (map_to_list lbls) stream.
Proof.
  intros Hperm. symmetry.
  apply streamLabels_order; [apply NoDup_fst_map_to_list|done].
Qed.

(** C10. Whatever labels the target has and in whatever order the map
    hands them out, the set given to the relabel engine by a "stdout" or
    "stderr" processor holds the log-stream label with the processor's
    value, and holds no other value under that name: a label of the same
    name among the target's labels is overwritten. *)
Theorem streamLabels_log_stream labelSet stream :
  stream = "stdout" \/ stream = "stderr" ->
  let handed := streamLabels labelSet stream in
  labels.mkLabel dockerLabelLogStream stream ∈ handed
  /\ (forall l, l ∈ handed -> labels.Name l = dockerLabelLogStream ->
               labels.Value l = stream).
Proof.
  intros Hstream. unfold streamLabels.
  set (lb := foldl _ _ labelSet).
  destruct (Set_fold labelSet (labels.NewBuilder []) eq_refl (NoDup_nil_2))
    as [Hbase Hnd]. fold lb in Hbase, Hnd.
  assert (labels.Set_ lb dockerLabelLogStream stream
          = labels.mkBuilder (labels.base lb) (labels.del lb)
              (labels.setAdd (labels.add lb) dockerLabelLogStream stream))
    as Hset by (by destruct Hstream as [-> | ->]).
  cbn zeta.
  assert (labels.Builder_Labels (labels.Set_ lb dockerLabelLogStream stream)
          ≡ₚ labels.setAdd (labels.add lb) dockerLabelLogStream stream)
    as Hperm.
  { rewrite Builder_Labels_add by (by rewrite Set_base). by rewrite Hset. }
  split.
  - rewrite Hperm. apply setAdd_elem.
  - intros l Hl Hname. rewrite Hperm in Hl.
    assert (l = labels.mkLabel dockerLabelLogStream stream) as ->; [|done].
    eapply names_unique; [by apply setAdd_NoDup|done|apply setAdd_elem|done].
Qed.

(** ** Construction *)

(** C9. [NewTarget] fails exactly when the lookup of the container's cursor
    fails, with the lookup's error and without a target, hence without a
    goroutine; otherwise it returns a target whose [since] is the stored
    cursor, zero standing for "from the beginning", whose loop has been
    spawned and has not run, which is not ready and carries no error. *)
Theorem NewTarget_position_lookup position name lbls cfg cl :
  (forall e,
     Get position (CursorKey name) = Failed e ->
     NewTarget position name lbls cfg cl = Failed e)
  /\ (forall pos,
        Get position (CursorKey name) = Ok pos ->
        exists m,
          NewTarget position name lbls cfg cl = Ok m
          /\ (pos <> 0 -> since (target m) = pos)
          /\ (pos = 0 -> since (target m) = 0)
          /\ containerName (target m) = name
          /\ labels (target m) = lbls
          /\ relabelConfig (target m) = cfg
          /\ client (target m) = cl
          /\ loopPc m = LoopSpawned
          /\ demuxPc m = DemuxNone
          /\ stdoutPc m = ProcNone /\ stderrPc m = ProcNone
          /\ logs m = None
          /\ wg (target m) = 0
          /\ cancelled (target m) = false
          /\ Ready (target m) = false
          /\ err (target m) = None)
  /\ ((exists e, NewTarget position name lbls cfg cl = Failed e)
      <-> (exists e, Get position (CursorKey name) = Failed e)).
Proof.
  unfold NewTarget. split; [|split].
  - by intros e ->.
  - intros pos ->. eexists. split; [done|]. cbn.
    destruct (Z.eqb_spec pos 0) as [->|Hne]; cbn; repeat split; done.
  - destruct (Get position (CursorKey name)) as [pos|e].
    + split; intros [e He]; done.
    + split; intros _; by exists e.
Qed.

(** ** The lifecycle *)

Lemma invariant_NewTarget position name lbls cfg cl m0 :
  NewTarget position name lbls cfg cl = Ok m0 -> invariant m0.
Proof.
  unfold NewTarget. destruct (Get position (CursorKey name)); [|done].
  intros [= <-]. split; cbn; try done; by intros [? ?].
Qed.

Ltac step_cases H :=
  cbn in H;
  repeat match type of H with
         | context [match ?x with _ => _ end] => destruct x eqn:?; cbn in H
         end;
  try discriminate H; injection H as <-.

Ltac invariant_cases :=
  split; cbn in *;
  repeat match goal with
         | H : _ /\ _ |- _ => destruct H
         | H : _ \/ _ |- _ => destruct H
         | e : option error |- _ => destruct e; cbn in *
         | lp : LoopPc |- _ => destruct lp; cbn in *
         | H : is_Some (Some ?e) -> _ |- _ =>
             specialize (H (ex_intro _ e eq_refl))
         end;
  subst; cbn in *; try discriminate; try lia; try done;
  try (intros [? ?]; discriminate);
  try (left; done); try (right; done).

Lemma invariant_step th m m' :
  invariant m -> step th m = Some m' -> invariant m'.
Proof.
  intros [Hwg Hrun Herr Hsp Hf] Hstep.
  destruct m as [[si cn lb rc cl ca w r e] lg lp dp op ep cp n].
  cbn in Hwg, Hrun, Herr, Hsp, Hf.
  destruct th; cbn in Hstep.
  - unfold processLoop in Hstep. destruct lp; step_cases Hstep; invariant_cases.
  - unfold demuxStep in Hstep. destruct dp; step_cases Hstep; invariant_cases.
  - unfold stdoutStep in Hstep. destruct op; step_cases Hstep; invariant_cases.
  - unfold stderrStep in Hstep. destruct ep; step_cases Hstep; invariant_cases.
  - unfold Stop in Hstep. destruct cp; step_cases Hstep; invariant_cases.
Qed.

Lemma sameConfig_step th m m' :
  step th m = Some m' -> sameConfig (target m) (target m').
Proof.
  intros Hstep.
  destruct m as [[si cn lb rc cl ca w r e] lg lp dp op ep cp n].
  destruct th; cbn in Hstep.
  - unfold processLoop in Hstep. destruct lp; step_cases Hstep; by repeat split.
  - unfold demuxStep in Hstep. destruct dp; step_cases Hstep; by repeat split.
  - unfold stdoutStep in Hstep. destruct op; step_cases Hstep; by repeat split.
  - unfold stderrStep in Hstep. destruct ep; step_cases Hstep; by repeat split.
  - unfold Stop in Hstep. destruct cp; step_cases Hstep; by repeat split.
Qed.

Lemma sameConfig_reachable m0 m :
  reachable m0 m -> sameConfig (target m0) (target m).
Proof.
  induction 1 as [|th m m' _ IH Hstep]; [by repeat split|].
  destruct IH as (?&?&?&?&?), (sameConfig_step _ _ _ Hstep) as (?&?&?&?&?).
  repeat split; congruence.
Qed.

Lemma invariant_reachable position name lbls cfg cl m0 m :
  NewTarget position name lbls cfg cl = Ok m0 ->
  reachable m0 m -> invariant m.
Proof.
  intros Hnew. induction 1; eauto using invariant_NewTarget, invariant_step.
Qed.

Lemma reachable_run m0 m schedule :
  reachable m0 m -> reachable m0 (run schedule m).
Proof.
  revert m. induction schedule as [|th schedule IH]; intros m Hm; [done|].
  cbn. apply IH. destruct (step th m) as [m'|] eqn:Hstep; [|done].
  by eapply reachable_step.
Qed.

Lemma fetchFailed_step e th m m' :
  (forall done,
     client (target m) done (containerName (target m)) (logsOptions (target m))
     = Failed e) ->
  fetchFailedAt e (loopPc m) (err (target m)) ->
  step th m = Some m' ->
  fetchFailedAt e (loopPc m') (err (target m')).
Proof.
  intros Hfail Hat Hstep.
  destruct m as [[si cn lb rc cl ca w r e0] lg lp dp op ep cp n].
  cbn in Hfail, Hat. destruct th; cbn in Hstep.
  - unfold processLoop in Hstep. cbn in Hstep.
    destruct lp; try done; try (by injection Hstep as <-).
    rewrite Hfail in Hstep. by injection Hstep as <-.
  - unfold demuxStep in Hstep. destruct dp; step_cases Hstep; done.
  - unfold stdoutStep in Hstep. destruct op; step_cases Hstep; done.
  - unfold stderrStep in Hstep. destruct ep; step_cases Hstep; done.
  - unfold Stop in Hstep. destruct cp; step_cases Hstep; done.
Qed.

Lemma fetchFailed_reachable e m0 m :
  (forall done,
     client (target m0) done (containerName (target m0))
            (logsOptions (target m0)) = Failed e) ->
  fetchFailedAt e (loopPc m0) (err (target m0)) ->
  reachable m0 m ->
  fetchFailedAt e (loopPc m) (err (target m)).
Proof.
  intros Hfail Hat. induction 1 as [|th m m' Hm IH Hstep]; [done|].
  eapply fetchFailed_step; [|exact IH|exact Hstep].
  destruct (sameConfig_reachable _ _ Hm) as (Hsi & Hcn & _ & _ & Hcl).
  intros done. unfold logsOptions. rewrite Hsi, Hcn, Hcl. apply Hfail.
Qed.

Lemma loop_returned_step th m m' :
  step th m = Some m' -> loopPc m = LoopReturned -> loopPc m' = LoopReturned.
Proof.
  intros Hstep Hpc.
  destruct m as [[si cn lb rc cl ca w r e] lg lp dp op ep cp n].
  cbn in Hpc. subst lp. destruct th; cbn in Hstep.
  - done.
  - unfold demuxStep in Hstep. destruct dp; step_cases Hstep; done.
  - unfold stdoutStep in Hstep. destruct op; step_cases Hstep; done.
  - unfold stderrStep in Hstep. destruct ep; step_cases Hstep; done.
  - unfold Stop in Hstep. destruct cp; step_cases Hstep; done.
Qed.

Lemma loop_returned_run schedule m :
  loopPc m = LoopReturned -> loopPc (run schedule m) = LoopReturned.
Proof.
  revert m. induction schedule as [|th schedule IH]; intros m Hpc; [done|].
  cbn. apply IH. destruct (step th m) as [m'|] eqn:Hstep; [|done].
  by eapply loop_returned_step.
Qed.

Lemma no_error_step th m m' :
  (forall done, exists r,
     client (target m) done (containerName (target m)) (logsOptions (target m))
     = Ok r) ->
  err (target m) = None -> step th m = Some m' -> err (target m') = None.
Proof.
  intros Hok Herr Hstep.
  destruct m as [[si cn lb rc cl ca w r e] lg lp dp op ep cp n].
  cbn in Hok, Herr. subst e. destruct th; cbn in Hstep.
  - unfold processLoop in Hstep. cbn in Hstep.
    destruct lp; try done; try (by injection Hstep as <-).
    + destruct (Hok ca) as [r' Hr]. rewrite Hr in Hstep.
      by injection Hstep as <-.
    + destruct ca; [|done]. by injection Hstep as <-.
  - unfold demuxStep in Hstep. destruct dp; step_cases Hstep; done.
  - unfold stdoutStep in Hstep. destruct op; step_cases Hstep; done.
  - unfold stderrStep in Hstep. destruct ep; step_cases Hstep; done.
  - unfold Stop in Hstep. destruct cp; step_cases Hstep; done.
Qed.

Lemma no_error_reachable m0 m :
  (forall done, exists r,
     client (target m0) done (containerName (target m0))
            (logsOptions (target m0)) = Ok r) ->
  err (target m0) = None -> reachable m0 m -> err (target m) = None.
Proof.
  intros Hok Herr. induction 1 as [|th m m' Hm IH Hstep]; [done|].
  eapply no_error_step; [|exact IH|exact Hstep].
  destruct (sameConfig_reachable _ _ Hm) as (Hsi & Hcn & _ & _ & Hcl).
  intros done. unfold logsOptions. rewrite Hsi, Hcn, Hcl. apply Hok.
Qed.

Lemma NewTarget_Ok position name lbls cfg cl m0 :
  NewTarget position name lbls cfg cl = Ok m0 ->
  client (target m0) = cl /\ containerName (target m0) = name
  /\ err (target m0) = None /\ loopPc m0 = LoopSpawned.
Proof.
  unfold NewTarget. destruct (Get position (CursorKey name)); [|done].
  by intros [= <-].
Qed.

Lemma fetchFailed_NewTarget position name lbls cfg cl m0 m e :
  NewTarget position name lbls cfg cl = Ok m0 ->
  (forall done opts, cl done name opts = Failed e) ->
  reachable m0 m ->
  fetchFailedAt e (loopPc m) (err (target m)).
Proof.
  intros (Hcl & Hname & Herr & Hpc)%NewTarget_Ok Hfail Hm.
  apply (fetchFailed_reachable e m0); [|by rewrite Hpc, Herr|done].
  intros done. rewrite Hcl, Hname. apply Hfail.
Qed.

(** X20. The window in which a target reports ready: from the store of
    [true] at the head of the loop to the store of [false] after the
    cancellation, and, when the request for the logs failed, from then
    on. *)
Lemma Ready_window position name lbls cfg cl m0 m :
  NewTarget position name lbls cfg cl = Ok m0 ->
  reachable m0 m ->
  Ready (target m)
  = runningAt (loopPc m) (bool_decide (is_Some (err (target m)))).
Proof.
  intros Hnew Hm.
  by destruct (invariant_reachable _ _ _ _ _ _ _ Hnew Hm) as [_ Hrun _ _ _].
Qed.

(** X17. What [Stop] does deliver.  When the loop has begun and no request
    for the logs has failed, a call of [Stop] returns only in a state where
    the wait group counts nobody: the loop has returned, nobody copies or
    scans, and the running flag is down. *)
Lemma Stop_returns_after_teardown position name lbls cfg cl m0 m m' :
  NewTarget position name lbls cfg cl = Ok m0 ->
  reachable m0 m ->
  callerPc m = CallerWaiting -> step ThCaller m = Some m' ->
  loopPc m <> LoopSpawned -> err (target m) = None ->
  stopsReturned m' = S (stopsReturned m)
  /\ Ready (target m') = false
  /\ wg (target m') = 0
  /\ loopPc m' = LoopReturned
  /\ demuxPc m' <> DemuxCopying
  /\ stdoutPc m' <> ProcScanning /\ stderrPc m' <> ProcScanning.
Proof.
  intros Hnew Hm Hcaller Hstep Hloop Herr.
  destruct (invariant_reachable _ _ _ _ _ _ _ Hnew Hm) as [Hwg Hrun _ _ _].
  destruct m as [[si cn lb rc cl' ca w r e] lg lp dp op ep cp n].
  cbn in Hcaller, Hstep, Hloop, Herr, Hwg, Hrun. subst cp e.
  unfold Stop in Hstep. cbn in Hstep.
  destruct (Z.eqb_spec w 0) as [->|]; [|done]. injection Hstep as <-.
  unfold Ready. cbn.
  assert (0 <= demuxCounted dp) by (by destruct dp).
  assert (0 <= procCounted op) by (by destruct op).
  assert (0 <= procCounted ep) by (by destruct ep).
  assert (lp = LoopReturned) as -> by (destruct lp; cbn in Hwg; done || lia).
  cbn in Hwg, Hrun. repeat split; try done.
  - intros ->. cbn in Hwg. lia.
  - intros ->. cbn in Hwg. lia.
  - intros ->. cbn in Hwg. lia.
Qed.

(** X19. A second call of [Stop] on a target that is torn down cancels
    again, finds the counter at zero and returns, changing nothing else. *)
Lemma Stop_again m :
  callerPc m = CallerIdle -> cancelled (target m) = true ->
  wg (target m) = 0 ->
  run [ThCaller; ThCaller] m
  = mkMachine (target m) (logs m) (loopPc m) (demuxPc m) (stdoutPc m)
              (stderrPc m) CallerIdle (S (stopsReturned m)).
Proof.
  destruct m as [[si cn lb rc cl ca w r e] lg lp dp op ep cp n]. cbn.
  intros -> -> ->. reflexivity.
Qed.

(** X18. [Stop] can win the race against the loop it is to stop: the loop
    adds itself to the wait group only once it runs, so a call of [Stop]
    that comes first returns at once, and a client that still serves the
    request lets the loop start its workers afterwards. *)
Lemma Stop_before_loop_started position name lbls cfg cl m0 r :
  NewTarget position name lbls cfg cl = Ok m0 ->
  (forall done opts, cl done name opts = Ok r) ->
  let stopped := run [ThCaller; ThCaller] m0 in
  let later := run [ThLoop; ThLoop; ThLoop; ThLoop; ThLoop] stopped in
  stopsReturned stopped = 1%nat
  /\ loopPc stopped = LoopSpawned
  /\ loopPc later = LoopStreaming
  /\ demuxPc later = DemuxCopying
  /\ wg (target later) = 4
  /\ Ready (target later) = true.
Proof.
  intros Hnew Hok. unfold NewTarget in Hnew.
  destruct (Get position (CursorKey name)); [|done]. injection Hnew as <-.
  cbn. unfold processLoop at 1. cbn. rewrite Hok. done.
Qed.

(** What [Details] returns once an error is recorded. *)
Lemma Details_after_error t position e :
  err t = Some e ->
  exists snapshot,
    Details t position = Returns snapshot
    /\ snapshot !! "id" = Some (containerName t)
    /\ snapshot !! "error" = Some (Error e)
    /\ snapshot !! "position"
       = Some (GetString position (CursorKey (containerName t)))
    /\ snapshot !! "running" = Some (strconv.FormatBool (running t)).
Proof.
  intros Herr. unfold Details. rewrite Herr. eexists. split; [done|].
  repeat split; by simplify_map_eq.
Qed.

(** C1, where the code departs from it. When the request for the logs
    fails with [e], every execution that brings the loop to its return has
    recorded [e] and leaves the loop with nothing more to run (no retry),
    but the running flag, raised before the request, is still up: [Ready]
    answers [true].  The schedule that runs the loop alone is such an
    execution. *)
Theorem failed_fetch_leaves_running position name lbls cfg cl m0 e :
  NewTarget position name lbls cfg cl = Ok m0 ->
  (forall done opts, cl done name opts = Failed e) ->
  (forall m,
     reachable m0 m -> loopPc m = LoopReturned ->
     Ready (target m) = true /\ err (target m) = Some e
     /\ step ThLoop m = None)
  /\ (let m := run [ThLoop; ThLoop; ThLoop; ThLoop] m0 in
      loopPc m = LoopReturned /\ Ready (target m) = true
      /\ err (target m) = Some e /\ wg (target m) = 0).
Proof.
  intros Hnew Hfail. split.
  - intros m Hm Hpc.
    destruct (invariant_reachable _ _ _ _ _ _ _ Hnew Hm) as [_ Hrun _ _ _].
    assert (fetchFailedAt e (loopPc m) (err (target m))) as Hat
      by eauto using fetchFailed_NewTarget.
    rewrite Hpc in Hat, Hrun. cbn in Hat, Hrun. unfold Ready.
    rewrite Hrun, Hat. split; [done|]. split; [done|].
    cbn. unfold processLoop. by rewrite Hpc.
  - unfold NewTarget in Hnew.
    destruct (Get position (CursorKey name)); [|done]. injection Hnew as <-.
    cbn. unfold processLoop at 1. cbn. rewrite Hfail. done.
Qed.

(** C2, where the code departs from it. After a failed request for the
    logs, [Stop] returns at once, the wait group counting nobody, and
    [Ready] still answers [true], then and ever after. *)
Theorem Stop_after_failed_fetch_still_ready position name lbls cfg cl m0 e :
  NewTarget position name lbls cfg cl = Ok m0 ->
  (forall done opts, cl done name opts = Failed e) ->
  let stopped :=
    run [ThLoop; ThLoop; ThLoop; ThLoop; ThCaller; ThCaller] m0 in
  stopsReturned stopped = 1%nat
  /\ callerPc stopped = CallerIdle
  /\ wg (target stopped) = 0
  /\ loopPc stopped = LoopReturned
  /\ Ready (target stopped) = true
  /\ (forall later, Ready (target (run later stopped)) = true).
Proof.
  intros Hnew Hfail stopped.
  assert (stopsReturned stopped = 1%nat /\ callerPc stopped = CallerIdle
          /\ wg (target stopped) = 0 /\ loopPc stopped = LoopReturned
          /\ Ready (target stopped) = true) as (Hn & Hc & Hwg & Hpc & Hready).
  { subst stopped. unfold NewTarget in Hnew.
    destruct (Get position (CursorKey name)); [|done]. injection Hnew as <-.
    cbn. unfold processLoop at 1. cbn. rewrite Hfail. done. }
  repeat split; try done. intros later.
  set (m := run later stopped).
  assert (reachable m0 m) as Hm by (do 2 apply reachable_run; constructor).
  assert (loopPc m = LoopReturned) as Hret by (by apply loop_returned_run).
  destruct (invariant_reachable _ _ _ _ _ _ _ Hnew Hm) as [_ Hrun _ _ _].
  assert (fetchFailedAt e (loopPc m) (err (target m))) as Hat
    by eauto using fetchFailed_NewTarget.
  rewrite Hret in Hat, Hrun. cbn in Hat, Hrun. unfold Ready.
  by rewrite Hrun, Hat.
Qed.

(** C3, where the code departs from it. [Details] panics on every target
    whose error is nil: on the target [NewTarget] returns, and in every
    state of a target whose requests for the logs succeed. *)
Theorem Details_panics_without_error :
  (forall t position, err t = None -> Details t position = Panics)
  /\ (forall position name lbls cfg cl m0 store,
        NewTarget position name lbls cfg cl = Ok m0 ->
        Details (target m0) store = Panics)
  /\ (forall position name lbls cfg cl m0 m store,
        NewTarget position name lbls cfg cl = Ok m0 ->
        (forall done opts, exists r, cl done name opts = Ok r) ->
        reachable m0 m ->
        Details (target m) store = Panics).
Proof.
  assert (forall t position, err t = None -> Details t position = Panics)
    as Hnil by (intros t position Herr; unfold Details; by rewrite Herr).
  split; [done|]. split.
  - intros position name lbls cfg cl m0 store Hnew. apply Hnil.
    by apply NewTarget_Ok in Hnew as (_ & _ & Herr & _).
  - intros position name lbls cfg cl m0 m store Hnew Hok Hm. apply Hnil.
    apply NewTarget_Ok in Hnew as (Hcl & Hname & Herr & _).
    apply (no_error_reachable m0); [|done..].
    intros done. rewrite Hcl, Hname. apply Hok.
Qed.

(** * Further properties of the code *)

(** ** extractTs, read backwards *)

(** X1. When [extractTs] returns without an error, the line was a token
    without blanks that parses to the timestamp returned, one blank, and
    the text returned, which is everything after that first blank. *)
Theorem extractTs_success_shape now line ts text :
  extractTs now line = (ts, text, None) ->
  exists token,
    line = token +:+ " " +:+ text
    /\ strings.ContainsBlank token = false
    /\ time.Parse token = Ok ts.
Proof.
  rewrite extractTs_Cut.
  destruct (strings.Cut line " ") as [[token rest]|] eqn:Hcut; [|done].
  destruct (time.Parse token) as [ts'|err] eqn:Hparse; [|done].
  intros [= -> ->]. apply Cut_blank_inv in Hcut as [-> Htoken].
  by exists token.
Qed.

(** X2. When [extractTs] returns an error, it returns the reading of the
    clock and the line as it came, and the error tells which of the two
    steps failed: the line has no blank, or the token before its first
    blank does not parse. *)
Theorem extractTs_error_shape now line ts text e :
  extractTs now line = (ts, text, Some e) ->
  ts = now /\ text = line
  /\ ((e = errNoTimestamp line /\ strings.ContainsBlank line = false)
      \/ exists token rest cause,
           e = errBadTimestamp token cause
           /\ line = token +:+ " " +:+ rest
           /\ strings.ContainsBlank token = false
           /\ time.Parse token = Failed cause).
Proof.
  rewrite extractTs_Cut.
  destruct (strings.Cut line " ") as [[token rest]|] eqn:Hcut.
  - destruct (time.Parse token) as [ts'|cause] eqn:Hparse; [done|].
    intros [= <- <- <-]. split; [done|]. split; [done|]. right.
    apply Cut_blank_inv in Hcut as [Hline Htoken].
    by exists token, rest, cause.
  - intros [= <- <- <-]. split; [done|]. split; [done|]. left.
    split; [done|]. destruct (strings.ContainsBlank line) eqn:Hb; [|done].
    apply Cut_blank_is_Some in Hb as [? Hb]. congruence.
Qed.

(** ** process over a whole stream *)

Lemma processLine_cases t stream w line :
  (exists e, (extractTs Now line).2 = Some e
             /\ lineEntry t stream line = None
             /\ processLine t stream w line = countError w)
  \/ (exists ts text, extractTs Now line = (ts, text, None)
                      /\ lineEntry t stream line
                         = Some (entryFor t stream ts text)
                      /\ processLine t stream w line
                         = forward t stream w ts text).
Proof.
  unfold processLine, lineEntry.
  destruct (extractTs Now line) as [[ts text] [e|]]; [left|right].
  - by exists e.
  - by exists ts, text.
Qed.

(** X3. Every line the scanner hands over is counted exactly once, as an
    entry or as an error, and the entries counted are the entries sent. *)
Theorem process_accounts_for_every_line t lines stream w :
  let w' := process t lines stream w in
  dockerEntries (metrics w') + dockerErrors (metrics w')
  = dockerEntries (metrics w) + dockerErrors (metrics w)
    + Z.of_nat (length lines)
  /\ Z.of_nat (length (sent w'))
     = Z.of_nat (length (sent w))
       + (dockerEntries (metrics w') - dockerEntries (metrics w))
  /\ dockerEntries (metrics w) <= dockerEntries (metrics w')
  /\ dockerErrors (metrics w) <= dockerErrors (metrics w').
Proof.
  cbn zeta. revert w. induction lines as [|line lines IH]; intros w.
  - cbn. lia.
  - rewrite process_cons.
    destruct (IH (processLine t stream w line)) as (IH1 & IH2 & IH3 & IH4).
    destruct (processLine_cases t stream w line)
      as [(e & _ & _ & Hstep)|(ts & text & _ & _ & Hstep)];
      rewrite Hstep in *; cbn in *; rewrite ?length_app in *; cbn in *; lia.
Qed.

(** X4. The entries are sent in the order of the lines: what a stream of
    lines adds to the channel is, line by line, the entry of each line
    that has one. *)
Theorem process_forwards_in_line_order t lines stream w :
  sent (process t lines stream w)
  = sent w ++ omap (lineEntry t stream) lines.
Proof.
  revert w. induction lines as [|line lines IH]; intros w.
  - cbn. by rewrite app_nil_r.
  - rewrite process_cons, IH. cbn [omap list_omap].
    destruct (processLine_cases t stream w line)
      as [(e & _ & -> & ->)|(ts & text & _ & -> & ->)]; cbn.
    + done.
    + by rewrite <- (assoc_L (++)).
Qed.

Lemma process_failing_lines t lines stream w :
  Forall (fun line => is_Some (extractTs Now line).2) lines ->
  sent (process t lines stream w) = sent w
  /\ positions (process t lines stream w) = positions w
  /\ dockerEntries (metrics (process t lines stream w))
     = dockerEntries (metrics w)
  /\ dockerErrors (metrics (process t lines stream w))
     = dockerErrors (metrics w) + Z.of_nat (length lines).
Proof.
  intros Hall. revert w. induction Hall as [|line lines [e He] _ IH]; intros w.
  - cbn. repeat split; lia.
  - rewrite process_cons, (processLine_error _ _ _ _ _ He).
    destruct (IH (countError w)) as (-> & -> & -> & ->). cbn.
    repeat split; lia.
Qed.

(** X5. After a stream of lines the cursor stored under the container's
    key is the unix time of the last line whose timestamp was extracted,
    whatever the earlier lines carried and however many failing lines
    follow it. *)
Theorem process_cursor_is_last_extracted t stream w before line after ts text :
  extractTs Now line = (ts, text, None) ->
  Forall (fun line => is_Some (extractTs Now line).2) after ->
  Get (positions (process t (before ++ line :: after) stream w))
      (CursorKey (containerName t))
  = Ok (time.Unix ts).
Proof.
  intros Hline Hafter. rewrite process_app, process_cons.
  rewrite (processLine_ok _ _ _ _ _ _ Hline).
  destruct (process_failing_lines t after stream
              (forward t stream (process t before stream w) ts text) Hafter)
    as (_ & -> & _). cbn. apply Get_Put.
Qed.

(** X6. A stream in which no line yields a timestamp sends nothing and
    leaves the position store and the entry counter alone; each of its
    lines counts as one error. *)
Theorem process_nothing_extracted t lines stream w :
  Forall (fun line => is_Some (extractTs Now line).2) lines ->
  let w' := process t lines stream w in
  sent w' = sent w
  /\ positions w' = positions w
  /\ dockerEntries (metrics w') = dockerEntries (metrics w)
  /\ dockerErrors (metrics w')
     = dockerErrors (metrics w) + Z.of_nat (length lines).
Proof. apply process_failing_lines. Qed.

(** ** Labels of the entries *)

Lemma filterLabels_other processed (acc : gmap string string) name :
  name ∉ labels.Name <$> processed ->
  foldl (fun filtered lbl =>
           if strings.HasPrefix (labels.Name lbl) "__" then filtered
           else <[labels.Name lbl := labels.Value lbl]> filtered)
        acc processed !! name
  = acc !! name.
Proof.
  revert acc. induction processed as [|lbl processed IH]; intros acc; [done|].
  rewrite fmap_cons, not_elem_of_cons. intros [Hne Hnin]. cbn [foldl].
  rewrite IH by done.
  destruct (strings.HasPrefix (labels.Name lbl) "__"); [done|].
  by rewrite lookup_insert_ne.
Qed.

Lemma filterLabels_kept processed (acc : gmap string string) name v :
  NoDup (labels.Name <$> processed) ->
  labels.mkLabel name v ∈ processed ->
  strings.HasPrefix name "__" = false ->
  foldl (fun filtered lbl =>
           if strings.HasPrefix (labels.Name lbl) "__" then filtered
           else <[labels.Name lbl := labels.Value lbl]> filtered)
        acc processed !! name
  = Some v.
Proof.
  revert acc. induction processed as [|lbl processed IH]; intros acc.
  { by intros _ ?%elem_of_nil. }
  rewrite fmap_cons, NoDup_cons. intros [Hlbl Hnd] Hin Hname. cbn [foldl].
  apply elem_of_cons in Hin as [<-|Hin].
  - cbn [labels.Name labels.Value] in *.
    rewrite Hname, filterLabels_other by done. apply lookup_insert_eq.
  - by apply IH.
Qed.

(** X8. When the labels that come back from the relabel engine repeat no
    name, the entry carries exactly those of them whose name does not
    start with two underscores, each with its value: nothing else is
    dropped and nothing is added. *)
Theorem filterLabels_keeps_the_rest processed name v :
  NoDup (labels.Name <$> processed) ->
  filterLabels processed !! name = Some v
  <-> (labels.mkLabel name v ∈ processed)
      /\ strings.HasPrefix name "__" = false.
Proof.
  intros Hnd. split.
  - intros Hlook.
    assert (strings.HasPrefix name "__" = false) as Hname
      by (apply (filterLabels_no_reserved processed); by rewrite Hlook).
    split; [|done].
    destruct (decide (name ∈ labels.Name <$> processed)) as [Hin|Hnin].
    + apply list_elem_of_fmap in Hin as ([n v'] & -> & Hin).
      unfold filterLabels in Hlook.
      rewrite (filterLabels_kept _ _ n v' Hnd Hin Hname) in Hlook.
      by injection Hlook as <-.
    + unfold filterLabels in Hlook.
      by rewrite filterLabels_other, lookup_empty in Hlook.
  - intros [Hin Hname]. by apply filterLabels_kept.
Qed.

(** X9. A line of a target that the relabel rules drop (the engine
    returns no labels) is forwarded all the same, with an empty label set,
    and moves the cursor like any other line. *)
Theorem dropped_target_still_forwarded t stream w line ts text :
  relabel_Process (streamLabels (map_to_list (labels t)) stream)
                  (relabelConfig t) = [] ->
  extractTs Now line = (ts, text, None) ->
  let w' := processLine t stream w line in
  sent w' = sent w ++ [mkEntry ∅ ts text]
  /\ dockerEntries (metrics w') = dockerEntries (metrics w) + 1
  /\ Get (positions w') (CursorKey (containerName t)) = Ok (time.Unix ts).
Proof.
  intros Hdrop Hline. cbn zeta. rewrite (processLine_ok _ _ _ _ _ _ Hline).
  unfold forward, entryFor. rewrite Hdrop. cbn. by rewrite Get_Put.
Qed.

Lemma streamLabels_Permutation (lbls : gmap string string) stream :
  stream <> EmptyString ->
  streamLabels (map_to_list lbls) stream
  ≡ₚ labels.mkLabel dockerLabelLogStream stream
     :: filter (fun a => labels.Name a <> dockerLabelLogStream)
          ((fun kv => labels.mkLabel kv.1 kv.2)
             <$> filter (fun kv => kv.2 <> EmptyString) (map_to_list lbls)).
Proof.
  intros Hstream. unfold streamLabels.
  destruct (Set_fold (map_to_list lbls) (labels.NewBuilder []) eq_refl
              (NoDup_nil_2)) as [Hbase Hnd].
  pose proof (Set_fold_add (map_to_list lbls) (labels.NewBuilder [])
                (NoDup_fst_map_to_list lbls)
                (fun _ _ => not_elem_of_nil _)) as Hadd.
  cbn [labels.add labels.NewBuilder app] in Hadd.
  set (b := foldl _ _ (map_to_list lbls)) in *.
  rewrite Builder_Labels_add by (by rewrite Set_base).
  unfold labels.Set_.
  destruct (String.eqb_spec stream EmptyString) as [?|_]; [done|]. cbn.
  rewrite setAdd_Permutation by done. by rewrite Hadd.
Qed.

(** X11. What the relabel engine is handed for a "stdout" or "stderr"
    processor: the log-stream label with the processor's value, and every
    label of the target that has a value and another name, with its value;
    labels of the target with an empty value are left out. *)
Theorem streamLabels_content (lbls : gmap string string) stream k v :
  stream = "stdout" \/ stream = "stderr" ->
  labels.mkLabel k v ∈ streamLabels (map_to_list lbls) stream
  <-> (k = dockerLabelLogStream /\ v = stream)
      \/ (k <> dockerLabelLogStream /\ lbls !! k = Some v
           /\ v <> EmptyString).
Proof.
  intros Hstream.
  assert (stream <> EmptyString) as Hne by (by destruct Hstream as [-> | ->]).
  rewrite (streamLabels_Permutation lbls stream Hne).
  rewrite elem_of_cons, list_elem_of_filter, list_elem_of_fmap. cbn.
  split.
  - intros [[= -> ->]|[Hk ([k' v'] & [= -> ->] & Hin)]]; [by left|right].
    apply list_elem_of_filter in Hin as [Hv Hin]. cbn in Hv.
    by apply elem_of_map_to_list in Hin.
  - intros [[-> ->]|(Hk & Hlook & Hv)]; [by left|right].
    split; [done|]. exists (k, v). split; [done|].
    apply list_elem_of_filter. split; [done|]. by apply elem_of_map_to_list.
Qed.

(** X12. The label set handed to the relabel engine is sorted by name
    and repeats no name, whatever the target's labels are. *)
Theorem streamLabels_sorted labelSet stream :
  Sorted labels.Less (streamLabels labelSet stream)
  /\ NoDup (labels.Name <$> streamLabels labelSet stream).
Proof.
  unfold streamLabels.
  destruct (Set_fold labelSet (labels.NewBuilder []) eq_refl (NoDup_nil_2))
    as [Hbase Hnd].
  set (b := foldl _ _ labelSet) in *.
  assert (labels.base (labels.Set_ b dockerLabelLogStream stream) = [])
    as Hbase' by (by rewrite Set_base).
  split.
  - rewrite Builder_Labels_sort by done. apply Sorted_merge_sort, _.
  - rewrite Builder_Labels_add by done. by apply Set_NoDup.
Qed.

(** ** The lifecycle, further *)

Lemma invariant_reachable_from m m' :
  invariant m -> reachable m m' -> invariant m'.
Proof. intros Hinv. induction 1; eauto using invariant_step. Qed.

(** X13. The wait group never counts below zero (its [Done] never
    panics) nor above four: in every state it counts the loop, the
    demultiplexer and the two line processors that are at work. *)
Theorem wg_counts_the_workers position name lbls cfg cl m0 m :
  NewTarget position name lbls cfg cl = Ok m0 ->
  reachable m0 m ->
  wg (target m)
  = loopCounted (loopPc m) + demuxCounted (demuxPc m)
    + procCounted (stdoutPc m) + procCounted (stderrPc m)
  /\ 0 <= wg (target m) <= 4.
Proof.
  intros Hnew Hm.
  destruct (invariant_reachable _ _ _ _ _ _ _ Hnew Hm) as [Hwg _ _ _ _].
  split; [done|]. rewrite Hwg.
  destruct (loopPc m), (demuxPc m), (stdoutPc m), (stderrPc m); cbn; lia.
Qed.

Lemma err_kept_step th m m' e :
  invariant m -> err (target m) = Some e -> step th m = Some m' ->
  err (target m') = Some e.
Proof.
  intros [_ _ Herr _ _] He Hstep.
  destruct m as [[si cn lb rc cl ca w r e0] lg lp dp op ep cp n].
  cbn in Herr, He. subst e0. cbn in Herr. destruct th; cbn in Hstep.
  - unfold processLoop in Hstep.
    destruct lp; try discriminate Herr; step_cases Hstep; done.
  - unfold demuxStep in Hstep. destruct dp; step_cases Hstep; done.
  - unfold stdoutStep in Hstep. destruct op; step_cases Hstep; done.
  - unfold stderrStep in Hstep. destruct ep; step_cases Hstep; done.
  - unfold Stop in Hstep. destruct cp; step_cases Hstep; done.
Qed.

(** X14. The error a target has recorded is never overwritten and never
    cleared: whatever runs afterwards, [t.err] stays what it was. *)
Theorem recorded_error_is_kept position name lbls cfg cl m0 m m' e :
  NewTarget position name lbls cfg cl = Ok m0 ->
  reachable m0 m -> err (target m) = Some e ->
  reachable m m' -> err (target m') = Some e.
Proof.
  intros Hnew Hm He Hm'.
  pose proof (invariant_reachable _ _ _ _ _ _ _ Hnew Hm) as Hinv.
  induction Hm' as [|th m1 m2 Hm1 IH Hstep]; [done|].
  eapply err_kept_step; [|exact IH|exact Hstep].
  by eapply invariant_reachable_from.
Qed.

Lemma logsAt_step th m m' :
  invariant m ->
  logsAt (loopPc m) (bool_decide (is_Some (err (target m)))) (logs m) ->
  step th m = Some m' ->
  logsAt (loopPc m') (bool_decide (is_Some (err (target m')))) (logs m').
Proof.
  intros [_ _ Herr _ _] Hlogs Hstep.
  destruct m as [[si cn lb rc cl ca w r e] lg lp dp op ep cp n].
  cbn in Herr, Hlogs. destruct th; cbn in Hstep.
  - unfold processLoop in Hstep.
    destruct lp; step_cases Hstep; cbn in *;
      repeat match goal with
             | H : exists _, _ |- _ => destruct H
             | e : option error |- _ => destruct e; cbn in *
             end;
      subst; cbn; try discriminate; eauto.
  - unfold demuxStep in Hstep. destruct dp; step_cases Hstep; done.
  - unfold stdoutStep in Hstep. destruct op; step_cases Hstep; done.
  - unfold stderrStep in Hstep. destruct ep; step_cases Hstep; done.
  - unfold Stop in Hstep. destruct cp; step_cases Hstep; done.
Qed.

Lemma logsAt_reachable position name lbls cfg cl m0 m :
  NewTarget position name lbls cfg cl = Ok m0 ->
  reachable m0 m ->
  logsAt (loopPc m) (bool_decide (is_Some (err (target m)))) (logs m).
Proof.
  intros Hnew. induction 1 as [|th m m' Hm IH Hstep].
  - unfold NewTarget in Hnew.
    destruct (Get position (CursorKey name)); [|done]. by injection Hnew as <-.
  - eapply logsAt_step; [|exact IH|exact Hstep].
    by eapply invariant_reachable.
Qed.

(** X15. The combined log stream is never left open behind: while the
    target streams the stream is open, and once the loop of a target that
    got its stream has returned, the stream has been closed; a target whose
    request failed never held one. *)
Theorem logs_closed_when_loop_returns position name lbls cfg cl m0 m :
  NewTarget position name lbls cfg cl = Ok m0 ->
  reachable m0 m ->
  (loopPc m = LoopStreaming -> exists r, logs m = Some (r, StreamOpen))
  /\ (loopPc m = LoopReturned -> err (target m) = None ->
      exists r, logs m = Some (r, StreamClosed))
  /\ (is_Some (err (target m)) -> logs m = None).
Proof.
  intros Hnew Hm.
  pose proof (logsAt_reachable _ _ _ _ _ _ _ Hnew Hm) as Hlogs.
  destruct (invariant_reachable _ _ _ _ _ _ _ Hnew Hm) as [_ _ Herr _ _].
  split; [|split].
  - intros Hpc. by rewrite Hpc in Hlogs.
  - intros Hpc He. by rewrite Hpc, He in Hlogs.
  - intros [e He]. rewrite He in Hlogs, Herr. cbn in Hlogs, Herr.
    destruct (loopPc m); cbn in Herr; try discriminate Herr; done.
Qed.

Ltac pick_begun :=
  first [ by left | by (right; left) | by (do 2 right; left)
        | by (do 3 right; left) | by (do 4 right; left)
        | by (do 5 right; left) | (do 6 right; lia) ].

Ltac begun_cases Hcan Hbegun :=
  cbn in *; try reflexivity; try assumption;
  destruct Hbegun as [?|[?|[[? ?]|[?|[?|[?|?]]]]]];
  subst; try discriminate; try assumption;
  try (apply Hcan; pick_begun).

Lemma cancelled_step th m m' :
  invariant m ->
  (teardownBegun m -> cancelled (target m) = true) ->
  step th m = Some m' ->
  teardownBegun m' -> cancelled (target m') = true.
Proof.
  intros [_ _ Herr _ _] Hcan Hstep.
  destruct m as [[si cn lb rc cl ca w r e] lg lp dp op ep cp n].
  unfold teardownBegun in *. cbn in Herr, Hcan. destruct th; cbn in Hstep.
  - unfold processLoop in Hstep.
    destruct lp; step_cases Hstep; intros Hbegun; begun_cases Hcan Hbegun.
  - unfold demuxStep in Hstep.
    destruct dp; step_cases Hstep; intros Hbegun; begun_cases Hcan Hbegun.
  - unfold stdoutStep in Hstep.
    destruct op; step_cases Hstep; intros Hbegun; begun_cases Hcan Hbegun.
  - unfold stderrStep in Hstep.
    destruct ep; step_cases Hstep; intros Hbegun; begun_cases Hcan Hbegun.
  - unfold Stop in Hstep.
    destruct cp; step_cases Hstep; intros Hbegun; begun_cases Hcan Hbegun.
Qed.

(** X16. Nothing of the teardown happens before the context is
    cancelled: the loop is past [<-ctx.Done()] (the running flag lowered,
    the stream closed, the loop of a streaming target returned), the
    demultiplexer or a caller is in [Stop], or a [Stop] has returned only
    in states where [t.cancel()] has been called. *)
Theorem teardown_only_after_cancel position name lbls cfg cl m0 m :
  NewTarget position name lbls cfg cl = Ok m0 ->
  reachable m0 m ->
  teardownBegun m -> cancelled (target m) = true.
Proof.
  intros Hnew. induction 1 as [|th m m' Hm IH Hstep].
  - unfold NewTarget in Hnew.
    destruct (Get position (CursorKey name)); [|done]. injection Hnew as <-.
    unfold teardownBegun. cbn.
    intros [?|[?|[[? ?]|[?|[?|[?|?]]]]]]; done || lia.
  - eapply cancelled_step; [|exact IH|exact Hstep].
    by eapply invariant_reachable.
Qed.

(** X21. Once the request for the logs has failed and the loop has
    returned, [Details] returns a snapshot of four entries: the container's
    name, the text of the error of the request, the position the store
    shows for the container's key, and "true" for the running flag. *)
Theorem Details_reports_failed_fetch position name lbls cfg cl m0 m e store :
  NewTarget position name lbls cfg cl = Ok m0 ->
  (forall done opts, cl done name opts = Failed e) ->
  reachable m0 m -> loopPc m = LoopReturned ->
  exists snapshot,
    Details (target m) store = Returns snapshot
    /\ snapshot !! "id" = Some name
    /\ snapshot !! "error" = Some (Error e)
    /\ snapshot !! "position" = Some (GetString store (CursorKey name))
    /\ snapshot !! "running" = Some "true"
    /\ size snapshot = 4%nat.
Proof.
  intros Hnew Hfail Hm Hpc.
  pose proof (fetchFailed_NewTarget _ _ _ _ _ _ _ _ Hnew Hfail Hm) as Hat.
  destruct (invariant_reachable _ _ _ _ _ _ _ Hnew Hm) as [_ Hrun _ _ _].
  apply NewTarget_Ok in Hnew as (_ & Hname & _ & _).
  destruct (sameConfig_reachable _ _ Hm) as (_ & Hcn & _).
  rewrite Hname in Hcn.
  rewrite Hpc in Hat, Hrun. cbn in Hat. rewrite Hat in Hrun. cbn in Hrun.
  unfold Details. rewrite Hat, Hrun, Hcn. eexists. split; [done|].
  repeat split; by simplify_map_eq.
Qed.

(** X22. What a target was built with stays as it was built: in every
    state [Labels] and [DiscoveredLabels] return the labels given to
    [NewTarget], the container's name is the one given, and the options of
    the request for the logs ask for both streams, followed, with
    timestamps, since the cursor that was stored when the target was
    built. *)
Theorem configuration_is_fixed position name lbls cfg cl pos m0 m :
  Get position (CursorKey name) = Ok pos ->
  NewTarget position name lbls cfg cl = Ok m0 ->
  reachable m0 m ->
  Labels_ (target m) = lbls
  /\ DiscoveredLabels (target m) = lbls
  /\ containerName (target m) = name
  /\ logsOptions (target m)
     = mkOptions true true true true (strconv.FormatInt pos).
Proof.
  intros Hget Hnew Hm.
  destruct (sameConfig_reachable _ _ Hm) as (Hsi & Hcn & Hlb & _ & _).
  unfold NewTarget in Hnew. rewrite Hget in Hnew. injection Hnew as <-.
  cbn in Hsi, Hcn, Hlb. unfold Labels_, DiscoveredLabels, logsOptions.
  rewrite Hsi, Hcn, Hlb. repeat split.
  by destruct (Z.eqb_spec pos 0) as [->|].
Qed.

End Target.

(** * The properties on the sample deployment *)

(** C6 as it is stated fails on a line whose only white space is a tab:
    white space is present, and the line is still reported as having no
    timestamp, unsplit. *)
Lemma tab_is_white_space_without_split :
  strings.ContainsSpace tabbedLine = true
  /\ strings.SplitN tabbedLine " " 2 = [tabbedLine]
  /\ extractTs epoch tabbedLine
     = (epoch, tabbedLine, Some (errNoTimestamp tabbedLine)).
Proof. repeat split; reflexivity. Qed.

Lemma failed_fetch_leaves_running_witness :
  exists m0 : Machine,
    NewTarget cursorKey noPositions "web" webLabels ([] : list unit)
              failingClient = Ok m0
    /\ (forall done opts, failingClient done "web" opts = Failed noSuchContainer)
    /\ let m := run [ThLoop; ThLoop; ThLoop; ThLoop] m0 in
       loopPc m = LoopReturned
       /\ Ready (target m) = true
       /\ err (target m) = Some noSuchContainer.
Proof.
  eexists. split; [reflexivity|]. split; [reflexivity|].
  pose proof (failed_fetch_leaves_running cursorKey noPositions "web"
                webLabels ([] : list unit) failingClient _ noSuchContainer
                eq_refl (fun _ _ => eq_refl))
    as [_ (Hpc & Hready & Herr & _)].
  split; [exact Hpc|]. split; [exact Hready|exact Herr].
Defined.

Lemma Stop_after_failed_fetch_still_ready_witness :
  exists m0 : Machine,
    NewTarget cursorKey noPositions "web" webLabels ([] : list unit)
              failingClient = Ok m0
    /\ (forall done opts, failingClient done "web" opts = Failed noSuchContainer)
    /\ let stopped :=
         run [ThLoop; ThLoop; ThLoop; ThLoop; ThCaller; ThCaller] m0 in
       stopsReturned stopped = 1%nat
       /\ wg (target stopped) = 0
       /\ Ready (target stopped) = true.
Proof.
  eexists. split; [reflexivity|]. split; [reflexivity|].
  pose proof (Stop_after_failed_fetch_still_ready cursorKey noPositions "web"
                webLabels ([] : list unit) failingClient _ noSuchContainer
                eq_refl (fun _ _ => eq_refl))
    as (Hn & _ & Hwg & _ & Hready & _).
  split; [exact Hn|]. split; [exact Hwg|exact Hready].
Defined.

Lemma Details_panics_without_error_witness :
  exists m0 : Machine,
    NewTarget cursorKey noPositions "web" webLabels ([] : list unit)
              servingClient = Ok m0
    /\ Details cursorKey parseErrorText (target m0) noPositions = Panics.
Proof.
  eexists. split; [reflexivity|].
  exact (proj1 (proj2 (Details_panics_without_error cursorKey parseErrorText))
           noPositions "web" webLabels ([] : list unit) servingClient _
           noPositions eq_refl).
Defined.

Lemma extractTs_timestamped_line_witness :
  time.Parse "2023-01-01T00:00:00.000000000Z"
  = Ok (time.mkTime 1672531200 0 time.UTC)
  /\ extractTs epoch ("2023-01-01T00:00:00.000000000Z" +:+ " " +:+ "hello")
     = (time.mkTime 1672531200 0 time.UTC, "hello", None).
Proof.
  split; [reflexivity|].
  exact (proj1 extractTs_timestamped_line epoch
           "2023-01-01T00:00:00.000000000Z" "hello" _ eq_refl).
Defined.

Lemma extractTs_split_at_first_blank_witness :
  strings.ContainsBlank "12:00 started worker" = true
  /\ exists token rest,
       "12:00 started worker" = token +:+ " " +:+ rest
       /\ strings.ContainsBlank token = false
       /\ strings.SplitN "12:00 started worker" " " 2 = [token; rest].
Proof.
  split; [reflexivity|].
  destruct (proj2 (extractTs_split_at_first_blank epoch "12:00 started worker")
              eq_refl) as (token & rest & Hline & Htoken & Hsplit & _).
  exists token, rest. split; [exact Hline|]. split; [exact Htoken|exact Hsplit].
Defined.

Lemma process_skips_malformed_line_witness :
  let t : Target := mkTarget 0 "web" webLabels ([] : list unit) servingClient
                             false 0 false None in
  let w := mkWorld [] (mkMetrics 0 0) noPositions in
  let before := ["2023-01-01T00:00:00.000000000Z one"] in
  let after := ["2023-01-01T00:00:01.000000000Z two"] in
  let bad := "garbage" +:+ String "009" "more" in
  Forall wellFormed (before ++ after)
  /\ malformed bad
  /\ let w' := process noRelabel cursorKey logStreamLabel epoch t
                       (before ++ bad :: after) "stdout" w in
     length (sent w') = 2%nat /\ dockerErrors (metrics w') = 1.
Proof.
  intros t w before after bad.
  assert (Forall wellFormed (before ++ after)) as Hgood.
  { repeat constructor.
    - exists "2023-01-01T00:00:00.000000000Z", "one", (time.mkTime 1672531200 0 time.UTC).
      split; reflexivity.
    - exists "2023-01-01T00:00:01.000000000Z", "two", (time.mkTime 1672531201 0 time.UTC).
      split; reflexivity. }
  assert (malformed bad) as Hbad by (left; reflexivity).
  split; [exact Hgood|]. split; [exact Hbad|].
  exact (proj2 (proj2 (proj2 (proj2 (proj2 (proj2
           (process_skips_malformed_line
              noRelabel cursorKey logStreamLabel epoch))))))
           t "stdout" w before bad after Hgood Hbad).
Defined.

Lemma forwarded_labels_not_reserved_witness :
  let t : Target := mkTarget 0 "web" webLabels ([] : list unit) servingClient
                             false 0 false None in
  let w := mkWorld [] (mkMetrics 0 0) noPositions in
  let lines := ["2023-01-01T00:00:00.000000000Z hello"] in
  let e := mkEntry (<["job" := "docker"]> ∅)
                   (time.mkTime 1672531200 0 time.UTC) "hello" in
  (e ∈ sent (process noRelabel cursorKey logStreamLabel epoch t lines
                     "stdout" w))
  /\ (e ∉ sent w)
  /\ is_Some (Labels e !! "job")
  /\ strings.HasPrefix "job" "__" = false.
Proof.
  intros t w lines e.
  assert (e ∈ sent (process noRelabel cursorKey logStreamLabel epoch t lines
                            "stdout" w)) as Hin.
  { replace (sent (process noRelabel cursorKey logStreamLabel epoch t lines
                           "stdout" w)) with [e] by (vm_compute; reflexivity).
    apply list_elem_of_here. }
  assert (e ∉ sent w) as Hnew by apply not_elem_of_nil.
  assert (is_Some (Labels e !! "job")) as Hjob by (eexists; reflexivity).
  split; [exact Hin|]. split; [exact Hnew|]. split; [exact Hjob|].
  exact (forwarded_labels_not_reserved noRelabel cursorKey logStreamLabel epoch
           t lines "stdout" w e "job" Hin Hnew Hjob).
Defined.

Lemma process_overwrites_cursor_witness :
  let t : Target := mkTarget 0 "web" webLabels ([] : list unit) servingClient
                             false 0 false None in
  let w := mkWorld [] (mkMetrics 0 0) (mapPut noPositions "cursor-web" 1900000000) in
  let l1 := "2023-01-01T00:00:00.000000000Z one" in
  let l2 := "2023-01-01T00:00:01.000000000Z two" in
  let l3 := "2023-01-01T00:00:02.000000000Z three" in
  extractTs epoch l1 = (time.mkTime 1672531200 0 time.UTC, "one", None)
  /\ extractTs epoch l2 = (time.mkTime 1672531201 0 time.UTC, "two", None)
  /\ extractTs epoch l3 = (time.mkTime 1672531202 0 time.UTC, "three", None)
  /\ let w' := process noRelabel cursorKey logStreamLabel epoch t [l1; l2; l3]
                       "stdout" w in
     length (sent w') = 3%nat
     /\ dockerEntries (metrics w') = 3
     /\ Get (positions w') (cursorKey "web") = Ok 1672531202.
Proof.
  intros t w l1 l2 l3.
  split; [reflexivity|]. split; [reflexivity|]. split; [reflexivity|].
  destruct (proj2 (process_overwrites_cursor noRelabel cursorKey logStreamLabel
                     epoch)
              t "stdout" w l1 l2 l3 _ _ _ _ _ _ eq_refl eq_refl eq_refl)
    as (Hsent & Hcount & Hcursor).
  split; [by rewrite Hsent|]. split; [exact Hcount|exact Hcursor].
Defined.

Lemma NewTarget_position_lookup_witness :
  Get brokenPositions (cursorKey "web") = Failed (errors_New "invalid position")
  /\ NewTarget cursorKey brokenPositions "web" webLabels ([] : list unit)
               servingClient
     = Failed (errors_New "invalid position")
  /\ Get (mapPut noPositions "cursor-web" 1672531202) (cursorKey "web")
     = Ok 1672531202
  /\ exists m : Machine,
       NewTarget cursorKey (mapPut noPositions "cursor-web" 1672531202) "web"
                 webLabels ([] : list unit) servingClient = Ok m
       /\ since (target m) = 1672531202
       /\ loopPc m = LoopSpawned
       /\ Ready (target m) = false
       /\ err (target m) = None.
Proof.
  split; [reflexivity|]. split.
  { exact (proj1 (NewTarget_position_lookup cursorKey brokenPositions "web"
                    webLabels ([] : list unit) servingClient)
             _ eq_refl). }
  assert (Get (mapPut noPositions "cursor-web" 1672531202) (cursorKey "web")
          = Ok 1672531202) as Hget by reflexivity.
  split; [exact Hget|].
  destruct (proj1 (proj2 (NewTarget_position_lookup cursorKey
                            (mapPut noPositions "cursor-web" 1672531202) "web"
                            webLabels ([] : list unit) servingClient))
              1672531202 Hget)
    as (m & Hnew & Hsince & _ & _ & _ & _ & _ & Hpc & _ & _ & _ & _ & _ & _
        & Hready & Herr).
  exists m. split; [exact Hnew|]. split; [by apply Hsince|].
  split; [exact Hpc|]. split; [exact Hready|exact Herr].
Defined.

Lemma streamLabels_log_stream_witness :
  let labelSet := [("job", "docker"); (logStreamLabel, "stale")] in
  ("stdout" = "stdout" \/ "stdout" = "stderr")
  /\ (labels.mkLabel logStreamLabel "stdout"
        ∈ streamLabels logStreamLabel labelSet "stdout")
  /\ (labels.mkLabel logStreamLabel "stale"
        ∉ streamLabels logStreamLabel labelSet "stdout").
Proof.
  intros labelSet.
  assert ("stdout" = "stdout" \/ "stdout" = "stderr") as Hstream by (by left).
  destruct (streamLabels_log_stream logStreamLabel labelSet "stdout" Hstream)
    as [Hin Hval].
  split; [exact Hstream|]. split; [exact Hin|].
  intros Hstale. by specialize (Hval _ Hstale eq_refl).
Defined.

(** * Properties that need the map store or the cluster planner *)

(** X7. Processing a stream writes under the container's cursor key and
    nowhere else: in the agent's map of positions every other key reads
    after the stream as it read before. *)
Theorem process_touches_one_key {Config ReadCloser : Type}
  (relabel_Process : labels.Labels -> list Config -> labels.Labels)
  (CursorKey : string -> string) (dockerLabelLogStream : string)
  (Now : time.Time) (t : @Target Config ReadCloser) lines stream
  (w : @World (gmap string (option Z))) key :
  key <> CursorKey (containerName t) ->
  positions (process relabel_Process CursorKey dockerLabelLogStream Now
                     t lines stream w) !! key
  = positions w !! key.
Proof.
  intros Hkey. revert w. induction lines as [|line lines IH]; intros w; [done|].
  rewrite process_cons, IH. unfold processLine.
  destruct (extractTs Now line) as [[ts text] [e|]]; [done|].
  cbn. unfold mapPut. by rewrite lookup_insert_ne.
Qed.

(** X23. [Validate] lets a configuration through exactly when the rate is
    positive, the retention is not negative, and none of the four unit
    costs compares below zero; a cost that is not a number compares below
    nothing and is let through. *)
Theorem Validate_accepts c :
  clusterplan.Validate c = None
  <-> 0 < clusterplan.BytesPerSecond c
      /\ 0 <= clusterplan.DaysRetention c
      /\ (clusterplan.CostPerGBMem (clusterplan.MonthlyUnitCost c) <? 0)%float
         = false
      /\ (clusterplan.CostPerCPU (clusterplan.MonthlyUnitCost c) <? 0)%float
         = false
      /\ (clusterplan.CostPerGBDisk (clusterplan.MonthlyUnitCost c) <? 0)%float
         = false
      /\ (clusterplan.CostPerGBObjStorage (clusterplan.MonthlyUnitCost c) <? 0)%float
         = false.
Proof.
  unfold clusterplan.Validate.
  destruct (Z.leb_spec (clusterplan.BytesPerSecond c) 0);
    [split; [done|lia]|].
  destruct (Z.ltb_spec (clusterplan.DaysRetention c) 0);
    [split; [done|lia]|].
  destruct (clusterplan.CostPerGBMem _ <? 0)%float;
    [split; [done|by intros (_ & _ & ? & _)]|].
  destruct (clusterplan.CostPerCPU _ <? 0)%float;
    [split; [done|by intros (_ & _ & _ & ? & _)]|].
  destruct (clusterplan.CostPerGBDisk _ <? 0)%float;
    [split; [done|by intros (_ & _ & _ & _ & ? & _)]|].
  destruct (clusterplan.CostPerGBObjStorage _ <? 0)%float;
    [split; [done|by intros (_ & _ & _ & _ & _ & ?)]|].
  done.
Qed.

(** X24. With the defaults the flags register, the rate alone decides: a
    configuration whose flags have been registered validates exactly when
    its rate is positive, and is otherwise refused for the rate, whatever
    it held before. *)
Theorem Validate_after_RegisterFlags c :
  (clusterplan.Validate (clusterplan.RegisterFlags c) = None
   <-> 0 < clusterplan.BytesPerSecond c)
  /\ (clusterplan.BytesPerSecond c <= 0 ->
      clusterplan.Validate (clusterplan.RegisterFlags c)
      = Some (errors_New "must specify bytes-per-second")).
Proof.
  unfold clusterplan.Validate, clusterplan.RegisterFlags. cbn.
  destruct (Z.leb_spec (clusterplan.BytesPerSecond c) 0); split;
    try done; try lia.
  split; [done|lia].
Qed.

(** * The further properties on the sample deployment *)

Lemma extractTs_success_shape_witness :
  extractTs epoch "2023-01-01T00:00:00.5+02:00 a b c"
  = (time.mkTime 1672524000 500000000 (time.FixedOffset 7200), "a b c", None)
  /\ exists token,
       "2023-01-01T00:00:00.5+02:00 a b c" = token +:+ " " +:+ "a b c"
       /\ strings.ContainsBlank token = false.
Proof.
  split; [reflexivity|].
  destruct (extractTs_success_shape epoch "2023-01-01T00:00:00.5+02:00 a b c"
              _ _ eq_refl) as (token & Hline & Htoken & _).
  exists token. split; [exact Hline|exact Htoken].
Defined.

Lemma extractTs_error_shape_witness :
  extractTs epoch "yesterday it rained"
  = (epoch, "yesterday it rained",
     Some (errBadTimestamp "yesterday" (time.errBad "2006" "yesterday")))
  /\ exists token rest cause,
       "yesterday it rained" = token +:+ " " +:+ rest
       /\ time.Parse token = Failed cause.
Proof.
  split; [reflexivity|].
  destruct (extractTs_error_shape epoch "yesterday it rained" _ _ _ eq_refl)
    as (_ & _ & [[Hno _]|(token & rest & cause & _ & Hline & _ & Hparse)]).
  - discriminate Hno.
  - exists token, rest, cause. split; [exact Hline|exact Hparse].
Defined.

Lemma process_cursor_is_last_extracted_witness :
  let t : Target := mkTarget 0 "web" webLabels ([] : list unit) servingClient
                             false 0 false None in
  let w := mkWorld [] (mkMetrics 0 0) noPositions in
  let before := ["2023-01-01T00:00:09.000000000Z late"] in
  let line := "2023-01-01T00:00:00.000000000Z early" in
  let after := ["garbage"; ""] in
  extractTs epoch line = (time.mkTime 1672531200 0 time.UTC, "early", None)
  /\ Forall (fun line => is_Some (extractTs epoch line).2) after
  /\ Get (positions (process noRelabel cursorKey logStreamLabel epoch t
                             (before ++ line :: after) "stdout" w))
         (cursorKey "web")
     = Ok 1672531200.
Proof.
  intros t w before line after.
  assert (Forall (fun line => is_Some (extractTs epoch line).2) after) as Hafter
    by (repeat constructor; eexists; reflexivity).
  split; [reflexivity|]. split; [exact Hafter|].
  exact (process_cursor_is_last_extracted noRelabel cursorKey logStreamLabel
           epoch t "stdout" w before line after _ _ eq_refl Hafter).
Defined.

Lemma process_nothing_extracted_witness :
  let t : Target := mkTarget 0 "web" webLabels ([] : list unit) servingClient
                             false 0 false None in
  let w := mkWorld [] (mkMetrics 0 0) noPositions in
  let lines := ["garbage"; ""; "not-a-time text"] in
  Forall (fun line => is_Some (extractTs epoch line).2) lines
  /\ let w' := process noRelabel cursorKey logStreamLabel epoch t lines
                       "stderr" w in
     sent w' = [] /\ positions w' = noPositions
     /\ dockerErrors (metrics w') = 3.
Proof.
  intros t w lines.
  assert (Forall (fun line => is_Some (extractTs epoch line).2) lines) as Hall
    by (repeat constructor; eexists; reflexivity).
  split; [exact Hall|].
  destruct (process_nothing_extracted noRelabel cursorKey logStreamLabel epoch
              t lines "stderr" w Hall) as (Hsent & Hpos & _ & Herr).
  split; [exact Hsent|]. split; [exact Hpos|exact Herr].
Defined.

Lemma process_touches_one_key_witness :
  let t : Target := mkTarget 0 "web" webLabels ([] : list unit) servingClient
                             false 0 false None in
  let w := mkWorld [] (mkMetrics 0 0) (mapPut noPositions "cursor-db" 7) in
  "cursor-db" <> cursorKey (containerName t)
  /\ positions (process noRelabel cursorKey logStreamLabel epoch t
                        ["2023-01-01T00:00:00.000000000Z hello"] "stdout" w)
       !! "cursor-db"
     = Some (Some 7).
Proof.
  intros t w.
  assert ("cursor-db" <> cursorKey (containerName t)) as Hkey by discriminate.
  split; [exact Hkey|].
  exact (process_touches_one_key noRelabel cursorKey logStreamLabel epoch t
           ["2023-01-01T00:00:00.000000000Z hello"] "stdout" w "cursor-db" Hkey).
Defined.

Lemma filterLabels_keeps_the_rest_witness :
  let processed := [labels.mkLabel "__name__" "x"; labels.mkLabel "job" "docker"] in
  NoDup (labels.Name <$> processed)
  /\ (labels.mkLabel "job" "docker" ∈ processed)
  /\ filterLabels processed !! "job" = Some "docker".
Proof.
  intros processed.
  assert (NoDup (labels.Name <$> processed)) as Hnd.
  { apply NoDup_cons. split.
    - intros [Heq|Hin%elem_of_nil]%elem_of_cons; [discriminate Heq|exact Hin].
    - apply NoDup_singleton. }
  assert (labels.mkLabel "job" "docker" ∈ processed) as Hin
    by (apply list_elem_of_further, list_elem_of_here).
  split; [exact Hnd|]. split; [exact Hin|].
  exact (proj2 (filterLabels_keeps_the_rest processed "job" "docker" Hnd)
           (conj Hin eq_refl)).
Defined.

Lemma dropped_target_still_forwarded_witness :
  let t : Target := mkTarget 0 "web" webLabels ([] : list unit) servingClient
                             false 0 false None in
  let w := mkWorld [] (mkMetrics 0 0) noPositions in
  let line := "2023-01-01T00:00:00.000000000Z hello" in
  dropAll (streamLabels logStreamLabel (map_to_list (labels t)) "stdout")
          (relabelConfig t) = []
  /\ extractTs epoch line = (time.mkTime 1672531200 0 time.UTC, "hello", None)
  /\ sent (processLine dropAll cursorKey logStreamLabel epoch t "stdout" w line)
     = [mkEntry ∅ (time.mkTime 1672531200 0 time.UTC) "hello"].
Proof.
  intros t w line. split; [reflexivity|]. split; [reflexivity|].
  exact (proj1 (dropped_target_still_forwarded dropAll cursorKey logStreamLabel
                  epoch t "stdout" w line _ _ eq_refl eq_refl)).
Defined.

Lemma streamLabels_range_witness :
  reverse (map_to_list webLabels) ≡ₚ map_to_list webLabels
  /\ streamLabels logStreamLabel (reverse (map_to_list webLabels)) "stdout"
     = streamLabels logStreamLabel (map_to_list webLabels) "stdout".
Proof.
  assert (reverse (map_to_list webLabels) ≡ₚ map_to_list webLabels) as Hperm
    by apply reverse_Permutation.
  split; [exact Hperm|].
  exact (streamLabels_range logStreamLabel webLabels _ "stdout" Hperm).
Defined.

Lemma streamLabels_content_witness :
  ("stderr" = "stdout" \/ "stderr" = "stderr")
  /\ webLabels !! "job" = Some "docker"
  /\ (labels.mkLabel "job" "docker"
        ∈ streamLabels logStreamLabel (map_to_list webLabels) "stderr").
Proof.
  assert ("stderr" = "stdout" \/ "stderr" = "stderr") as Hstream by (by right).
  assert (webLabels !! "job" = Some "docker") as Hjob by reflexivity.
  split; [exact Hstream|]. split; [exact Hjob|].
  apply (proj2 (streamLabels_content logStreamLabel webLabels "stderr" "job"
                  "docker" Hstream)).
  right. split; [discriminate|]. split; [exact Hjob|discriminate].
Defined.

Lemma wg_counts_the_workers_witness :
  exists m0 : Machine,
    NewTarget cursorKey noPositions "web" webLabels ([] : list unit)
              servingClient = Ok m0
    /\ let m := run [ThLoop; ThLoop; ThLoop; ThLoop; ThLoop; ThStdout] m0 in
       reachable m0 m
       /\ wg (target m) = 3
       /\ 0 <= wg (target m) <= 4.
Proof.
  eexists.
  assert (NewTarget cursorKey noPositions "web" webLabels ([] : list unit)
                    servingClient = Ok _) as Hnew by reflexivity.
  split; [exact Hnew|]. intros m.
  assert (reachable _ m) as Hm
    by (subst m; apply reachable_run, reachable_start).
  split; [exact Hm|]. split; [reflexivity|].
  exact (proj2 (wg_counts_the_workers cursorKey noPositions "web" webLabels
                  ([] : list unit) servingClient _ m Hnew Hm)).
Defined.

Lemma recorded_error_is_kept_witness :
  exists m0 : Machine,
    NewTarget cursorKey noPositions "web" webLabels ([] : list unit)
              failingClient = Ok m0
    /\ let m := run [ThLoop; ThLoop; ThLoop] m0 in
       let m' := run [ThCaller; ThLoop; ThCaller; ThDemux] m in
       reachable m0 m
       /\ err (target m) = Some noSuchContainer
       /\ reachable m m'
       /\ err (target m') = Some noSuchContainer.
Proof.
  eexists.
  assert (NewTarget cursorKey noPositions "web" webLabels ([] : list unit)
                    failingClient = Ok _) as Hnew by reflexivity.
  split; [exact Hnew|]. intros m m'.
  assert (reachable _ m) as Hm
    by (subst m; apply reachable_run, reachable_start).
  assert (reachable m m') as Hm'
    by (subst m'; apply reachable_run, reachable_start).
  assert (err (target m) = Some noSuchContainer) as Herr by reflexivity.
  split; [exact Hm|]. split; [exact Herr|]. split; [exact Hm'|].
  exact (recorded_error_is_kept cursorKey noPositions "web" webLabels
           ([] : list unit) failingClient _ m m' noSuchContainer Hnew Hm
           Herr Hm').
Defined.

Lemma logs_closed_when_loop_returns_witness :
  exists m0 : Machine,
    NewTarget cursorKey noPositions "web" webLabels ([] : list unit)
              servingClient = Ok m0
    /\ let m := run [ThLoop; ThLoop; ThLoop; ThLoop; ThLoop; ThCaller;
                     ThLoop; ThLoop; ThLoop] m0 in
       reachable m0 m
       /\ loopPc m = LoopReturned
       /\ err (target m) = None
       /\ logs m = Some (tt, StreamClosed).
Proof.
  eexists.
  assert (NewTarget cursorKey noPositions "web" webLabels ([] : list unit)
                    servingClient = Ok _) as Hnew by reflexivity.
  split; [exact Hnew|]. intros m.
  assert (reachable _ m) as Hm
    by (subst m; apply reachable_run, reachable_start).
  assert (loopPc m = LoopReturned) as Hpc by reflexivity.
  assert (err (target m) = None) as Herr by reflexivity.
  split; [exact Hm|]. split; [exact Hpc|]. split; [exact Herr|].
  destruct (proj1 (proj2 (logs_closed_when_loop_returns cursorKey noPositions
                            "web" webLabels ([] : list unit) servingClient
                            _ m Hnew Hm)) Hpc Herr) as [[] Hlogs].
  exact Hlogs.
Defined.

Lemma teardown_only_after_cancel_witness :
  exists m0 : Machine,
    NewTarget cursorKey noPositions "web" webLabels ([] : list unit)
              servingClient = Ok m0
    /\ let m := run [ThLoop; ThLoop; ThLoop; ThLoop; ThLoop; ThDemux;
                     ThDemux; ThDemux; ThLoop] m0 in
       reachable m0 m
       /\ teardownBegun m
       /\ cancelled (target m) = true.
Proof.
  eexists.
  assert (NewTarget cursorKey noPositions "web" webLabels ([] : list unit)
                    servingClient = Ok _) as Hnew by reflexivity.
  split; [exact Hnew|]. intros m.
  assert (reachable _ m) as Hm
    by (subst m; apply reachable_run, reachable_start).
  assert (teardownBegun m) as Hbegun by (left; reflexivity).
  split; [exact Hm|]. split; [exact Hbegun|].
  exact (teardown_only_after_cancel cursorKey noPositions "web" webLabels
           ([] : list unit) servingClient _ m Hnew Hm Hbegun).
Defined.

Lemma Stop_returns_after_teardown_witness :
  exists m0 : Machine,
    NewTarget cursorKey noPositions "web" webLabels ([] : list unit)
              servingClient = Ok m0
    /\ let m := run [ThLoop; ThLoop; ThLoop; ThLoop; ThLoop; ThCaller;
                     ThLoop; ThLoop; ThLoop; ThDemux; ThStdout; ThStderr] m0 in
       let m' := run [ThCaller] m in
       reachable m0 m
       /\ callerPc m = CallerWaiting
       /\ step ThCaller m = Some m'
       /\ loopPc m <> LoopSpawned
       /\ err (target m) = None
       /\ Ready (target m') = false
       /\ wg (target m') = 0
       /\ loopPc m' = LoopReturned.
Proof.
  eexists.
  assert (NewTarget cursorKey noPositions "web" webLabels ([] : list unit)
                    servingClient = Ok _) as Hnew by reflexivity.
  split; [exact Hnew|]. intros m m'.
  assert (reachable _ m) as Hm
    by (subst m; apply reachable_run, reachable_start).
  assert (loopPc m <> LoopSpawned) as Hpc by (vm_compute; discriminate).
  assert (callerPc m = CallerWaiting) as Hcaller by (vm_compute; reflexivity).
  assert (step ThCaller m = Some m') as Hstep by (vm_compute; reflexivity).
  assert (err (target m) = None) as Herr by (vm_compute; reflexivity).
  split; [exact Hm|]. split; [exact Hcaller|]. split; [exact Hstep|].
  split; [exact Hpc|]. split; [exact Herr|].
  destruct (Stop_returns_after_teardown cursorKey noPositions "web" webLabels
              ([] : list unit) servingClient _ m m' Hnew Hm Hcaller Hstep
              Hpc Herr) as (_ & Hready & Hwg & Hloop & _).
  split; [exact Hready|]. split; [exact Hwg|exact Hloop].
Defined.

Lemma Stop_before_loop_started_witness :
  exists m0 : Machine,
    NewTarget cursorKey noPositions "web" webLabels ([] : list unit)
              servingClient = Ok m0
    /\ (forall done opts, servingClient done "web" opts = Ok tt)
    /\ let stopped := run [ThCaller; ThCaller] m0 in
       let later := run [ThLoop; ThLoop; ThLoop; ThLoop; ThLoop] stopped in
       stopsReturned stopped = 1%nat
       /\ loopPc later = LoopStreaming
       /\ wg (target later) = 4.
Proof.
  eexists.
  assert (NewTarget cursorKey noPositions "web" webLabels ([] : list unit)
                    servingClient = Ok _) as Hnew by reflexivity.
  split; [exact Hnew|]. split; [reflexivity|].
  destruct (Stop_before_loop_started cursorKey noPositions "web" webLabels
              ([] : list unit) servingClient _ tt Hnew (fun _ _ => eq_refl))
    as (Hn & _ & Hpc & _ & Hwg & _).
  split; [exact Hn|]. split; [exact Hpc|exact Hwg].
Defined.

Lemma Stop_again_witness :
  let t : Target := mkTarget 0 "web" webLabels ([] : list unit) servingClient
                             true 0 false None in
  let m : Machine := mkMachine t (Some (tt, StreamClosed)) LoopReturned
                               DemuxReturned ProcReturned ProcReturned
                               CallerIdle 1 in
  callerPc m = CallerIdle /\ cancelled (target m) = true /\ wg (target m) = 0
  /\ stopsReturned (run [ThCaller; ThCaller] m) = 2%nat
  /\ target (run [ThCaller; ThCaller] m) = t.
Proof.
  intros t m. split; [reflexivity|]. split; [reflexivity|]. split; [reflexivity|].
  rewrite (Stop_again m eq_refl eq_refl eq_refl). split; reflexivity.
Defined.

Lemma Ready_window_witness :
  exists m0 : Machine,
    NewTarget cursorKey noPositions "web" webLabels ([] : list unit)
              servingClient = Ok m0
    /\ let m := run [ThLoop; ThLoop; ThLoop; ThLoop] m0 in
       reachable m0 m
       /\ loopPc m = LoopCopying
       /\ Ready (target m) = true.
Proof.
  eexists.
  assert (NewTarget cursorKey noPositions "web" webLabels ([] : list unit)
                    servingClient = Ok _) as Hnew by reflexivity.
  split; [exact Hnew|]. intros m.
  assert (reachable _ m) as Hm
    by (subst m; apply reachable_run, reachable_start).
  split; [exact Hm|]. split; [reflexivity|].
  exact (Ready_window cursorKey noPositions "web" webLabels ([] : list unit)
           servingClient _ m Hnew Hm).
Defined.

Lemma Details_reports_failed_fetch_witness :
  exists m0 : Machine,
    NewTarget cursorKey noPositions "web" webLabels ([] : list unit)
              failingClient = Ok m0
    /\ (forall done opts, failingClient done "web" opts = Failed noSuchContainer)
    /\ let m := run [ThLoop; ThLoop; ThLoop; ThLoop] m0 in
       reachable m0 m
       /\ loopPc m = LoopReturned
       /\ exists snapshot,
            Details cursorKey parseErrorText (target m)
                    (mapPut noPositions "cursor-web" 42)
            = Returns snapshot
            /\ snapshot !! "error" = Some "no such container"
            /\ snapshot !! "running" = Some "true".
Proof.
  eexists.
  assert (NewTarget cursorKey noPositions "web" webLabels ([] : list unit)
                    failingClient = Ok _) as Hnew by reflexivity.
  split; [exact Hnew|]. split; [reflexivity|]. intros m.
  assert (reachable _ m) as Hm
    by (subst m; apply reachable_run, reachable_start).
  assert (loopPc m = LoopReturned) as Hpc by reflexivity.
  split; [exact Hm|]. split; [exact Hpc|].
  destruct (Details_reports_failed_fetch cursorKey parseErrorText noPositions
              "web" webLabels ([] : list unit) failingClient _ m
              noSuchContainer (mapPut noPositions "cursor-web" 42)
              Hnew (fun _ _ => eq_refl) Hm Hpc)
    as (snapshot & Hdetails & _ & Herror & _ & Hrunning & _).
  exists snapshot. split; [exact Hdetails|]. split; [exact Herror|exact Hrunning].
Defined.

Lemma configuration_is_fixed_witness :
  exists m0 : Machine,
    Get (mapPut noPositions "cursor-web" 1672531202) (cursorKey "web")
    = Ok 1672531202
    /\ NewTarget cursorKey (mapPut noPositions "cursor-web" 1672531202) "web"
                 webLabels ([] : list unit) servingClient = Ok m0
    /\ let m := run [ThLoop; ThLoop; ThLoop; ThLoop; ThLoop; ThCaller] m0 in
       reachable m0 m
       /\ Labels_ (target m) = webLabels
       /\ Since (logsOptions (target m)) = "1672531202".
Proof.
  eexists.
  assert (Get (mapPut noPositions "cursor-web" 1672531202) (cursorKey "web")
          = Ok 1672531202) as Hget by reflexivity.
  split; [exact Hget|]. split; [reflexivity|]. intros m.
  assert (reachable _ m) as Hm
    by (subst m; apply reachable_run, reachable_start).
  split; [exact Hm|].
  destruct (configuration_is_fixed cursorKey
              (mapPut noPositions "cursor-web" 1672531202) "web" webLabels
              ([] : list unit) servingClient 1672531202 _ m Hget eq_refl Hm)
    as (Hlabels & _ & _ & Hopts).
  split; [exact Hlabels|]. by rewrite Hopts.
Defined.

Lemma Validate_after_RegisterFlags_witness :
  let c := clusterplan.mkConfig 0 (-5)
             (clusterplan.mkUnitCostInfo (-1)%float 0%float 0%float 0%float) in
  clusterplan.BytesPerSecond c <= 0
  /\ clusterplan.Validate (clusterplan.RegisterFlags c)
     = Some (errors_New "must specify bytes-per-second").
Proof.
  intros c.
  assert (clusterplan.BytesPerSecond c <= 0) as Hrate by (cbn; lia).
  split; [exact Hrate|].
  exact (proj2 (Validate_after_RegisterFlags c) Hrate).
Defined.
